(** * Discv5Discovery: the libp2p peer-discovery adapter of discv5

    A shallow embedding of [src/libp2p/discv5.ts].  The class keeps two
    private fields ([started], [lookupInterval]) and talks to three
    collaborators: the discv5 engine ([this.discv5]), the record class
    ([ENR]) and its own event emitter.  Its methods are written here as
    resumable tasks: a task runs synchronously up to an [await], is
    suspended there, and is resumed later, possibly after other callers
    have used the controller in the meantime. *)

From Stdlib Require Import ZArith List String Bool Lia Floats.SpecFloat.
Import ListNotations.
Open Scope string_scope.
Open Scope list_scope.

Set Implicit Arguments.

(** ** JavaScript values *)

(** A JavaScript [number] is an IEEE-754 binary64 value. *)
Definition number : Type := spec_float.

Definition num (z : Z) : number := binary_normalize 53 1024 z 0 false.

Definition js_mul : number -> number -> number := SFmul 53 1024.

(** [ToBoolean] on a number: [+0], [-0] and [NaN] are falsy. *)
Definition truthy (n : number) : bool :=
  match n with
  | S754_zero _ => false
  | S754_nan => false
  | _ => true
  end.

(** [a || b] where [a] is [number | undefined]. *)
Definition or_else (a : option number) (b : number) : number :=
  match a with
  | Some n => if truthy n then n else b
  | None => b
  end.

(** [const defaultLookupInterval = 5 * 1000;] *)
Definition defaultLookupInterval : number := js_mul (num 5) (num 1000).

Definition Buffer : Type := list Byte.byte.

(** [toBuffer] of [../util] re-wraps the bytes it is given. *)
Definition toBuffer (bytes : Buffer) : Buffer := bytes.

Inductive Error : Type :=
| DecodeError (txt : string)
| JsError (message : string)
| Rejection (reason : string).

(** The [Error] thrown by [addEnr]; the specification calls it
    [InvalidInputError]. *)
Definition InvalidInputError : Error :=
  JsError "invalid enr, missing udp information".

(** How a promise settles. *)
Inductive Settled (X : Type) : Type :=
| Resolved (x : X)
| Rejected (e : Error).

Arguments Resolved {X} x.
Arguments Rejected {X} e.

(** ** The imported modules

    [ENR] and [createNodeId] come from [../enr], [Multiaddr] from
    [multiaddr] and [PeerId] from [peer-id]; none of them is part of this
    file, so the controller is modelled over their interface. *)
Class Imports : Type := {
  ENR : Type;
  Multiaddr : Type;
  PeerId : Type;
  NodeId : Type;
  (** [ENR.decodeTxt(txt)]; [None] when it throws *)
  decodeTxt : string -> option ENR;
  (** the getters [enr.udp] and [enr.udp6]; [None] is [undefined] *)
  udp : ENR -> option Z;
  udp6 : ENR -> option Z;
  (** [enr.getLocationMultiaddr(protocol)]; [None] is [undefined] *)
  getLocationMultiaddr : ENR -> string -> option Multiaddr;
  (** how the promise returned by [enr.peerId()] settles *)
  peerId : ENR -> Settled PeerId;
  createNodeId : Buffer -> NodeId
}.

Section Controller.

Context {imports : Imports}.

(** [type ENRInput = ENR | string] *)
Inductive ENRInput : Type :=
| EnrTxt (txt : string)
| EnrObj (e : ENR).

(** The payload of a ["peer"] event. *)
Record PeerInfo : Type := {
  id : PeerId;
  multiaddrs : list Multiaddr
}.

Record IDiscv5DiscoveryOptions : Type := {
  opt_enr : ENRInput;
  opt_peerId : PeerId;
  opt_bindAddr : string;
  opt_bootEnrs : list ENRInput;
  opt_enabled : bool;
  opt_lookupInterval : option number
}.

(** The private fields of the class. *)
Record Discv5Discovery : Type := {
  started : bool;
  lookupInterval : number
}.

(** Synchronous calls on the collaborators. *)
Inductive SyncCall : Type :=
| Discv5_create (enr : ENRInput) (peer : PeerId) (bindAddr : string)
| discv5_on (event : string)
| discv5_off (event : string)
| discv5_addEnr (e : ENR)
| emit (event : string) (payload : PeerInfo)
| setTimeout_findPeers (ms : number).

(** Calls that return a promise. *)
Inductive AsyncOp : Type :=
| discv5_start
| discv5_stop
| discv5_findNode (target : NodeId)
| enr_peerId (e : ENR)
| setTimeout_resolve (ms : number).

Definition answer (op : AsyncOp) : Type :=
  match op with
  | discv5_start => unit
  | discv5_stop => unit
  | discv5_findNode _ => list ENR
  | enr_peerId _ => PeerId
  | setTimeout_resolve _ => unit
  end.

(** What an observer of the collaborators sees. *)
Inductive Event : Type :=
| did (c : SyncCall)
| began (op : AsyncOp).

(** ** Tasks

    The body of a method, statement by statement:
    - [Return], [Throw e]: [return;] and [throw e;] (in an [async]
      function: the promise resolves, or rejects with [e]);
    - [GetStarted], [SetStarted], [GetLookupInterval],
      [SetLookupInterval]: reads and writes of [this.started] and
      [this.lookupInterval];
    - [RandomBytes n]: [randomBytes(n)];
    - [Call c]: a synchronous call on a collaborator;
    - [Detach t]: a call of the [async] function [t] whose promise is
      dropped: [t] runs up to its first [await], the caller goes on;
    - [Invoke op]: [await op(...)], the call and then the wait;
      [Wait op] is the same task once the call has been made;
    - [Yield]: the [await] of a promise that is already settled;
    - [Unfinished]: where the unrolling of a [while] loop ends. *)
Inductive Task : Type :=
| Return
| Throw (e : Error)
| Unfinished
| GetStarted (k : bool -> Task)
| SetStarted (b : bool) (k : Task)
| GetLookupInterval (k : number -> Task)
| SetLookupInterval (n : number) (k : Task)
| RandomBytes (n : nat) (k : Buffer -> Task)
| Call (c : SyncCall) (k : Task)
| Detach (t : Task) (k : Task)
| Invoke (op : AsyncOp) (k : Settled (answer op) -> Task)
| Wait (op : AsyncOp) (k : Settled (answer op) -> Task)
| Yield (k : Task).

(** [t; k]: statement sequencing. *)
Fixpoint seq (t k : Task) : Task :=
  match t with
  | Return => k
  | Throw e => Throw e
  | Unfinished => Unfinished
  | GetStarted f => GetStarted (fun b => seq (f b) k)
  | SetStarted b t' => SetStarted b (seq t' k)
  | GetLookupInterval f => GetLookupInterval (fun n => seq (f n) k)
  | SetLookupInterval n t' => SetLookupInterval n (seq t' k)
  | RandomBytes n f => RandomBytes n (fun b => seq (f b) k)
  | Call c t' => Call c (seq t' k)
  | Detach d t' => Detach d (seq t' k)
  | Invoke op f => Invoke op (fun r => seq (f r) k)
  | Wait op f => Wait op (fun r => seq (f r) k)
  | Yield t' => Yield (seq t' k)
  end.

(** [const x = await op; k x]: a rejection is rethrown. *)
Definition await (op : AsyncOp) (k : answer op -> Task) : Task :=
  Invoke op (fun r =>
    match r with
    | Resolved x => k x
    | Rejected e => Throw e
    end).

(** [for (const x of xs) body] and [xs.forEach(body)]. *)
Fixpoint forEach (A : Type) (xs : list A) (body : A -> Task) : Task :=
  match xs with
  | [] => Return
  | x :: rest => seq (body x) (forEach rest body)
  end.

(** ** The methods of the class *)

(** [typeof enr === "string" ? ENR.decodeTxt(enr) : enr] *)
Definition decode (enr : ENRInput) : Error + ENR :=
  match enr with
  | EnrTxt txt =>
      match decodeTxt txt with
      | Some e => inr e
      | None => inl (DecodeError txt)
      end
  | EnrObj e => inr e
  end.

Definition decoded (enr : ENRInput) (k : ENR -> Task) : Task :=
  match decode enr with
  | inr decodedEnr => k decodedEnr
  | inl e => Throw e
  end.

Definition addEnr (enr : ENRInput) : Task :=
  decoded enr (fun decodedEnr =>
    match udp decodedEnr, udp6 decodedEnr with
    | None, None => Throw InvalidInputError
    | _, _ => Call (discv5_addEnr decodedEnr) Return
    end).

Definition handleEnr (enr : ENRInput) : Task :=
  decoded enr (fun decodedEnr =>
    match getLocationMultiaddr decodedEnr "tcp" with
    | None => Return
    | Some multiaddrTCP =>
        let multiaddrUDP := getLocationMultiaddr decodedEnr "udp" in
        await (enr_peerId decodedEnr) (fun peer =>
          Call (emit "peer"
                  {| id := peer;
                     multiaddrs :=
                       match multiaddrUDP with
                       | Some u => [multiaddrTCP; u]
                       | None => [multiaddrTCP]
                       end |})
            Return)
    end).

Definition constructor (options : IDiscv5DiscoveryOptions) : Task :=
  Call (Discv5_create (opt_enr options) (opt_peerId options)
          (opt_bindAddr options))
    (SetStarted false
       (SetLookupInterval
          (or_else (opt_lookupInterval options) defaultLookupInterval)
          (forEach (opt_bootEnrs options) (fun bootEnr =>
             seq (addEnr bootEnr) (Detach (handleEnr bootEnr) Return))))).

Definition start : Task :=
  GetStarted (fun is_started =>
    if is_started then Return
    else
      SetStarted true
        (await discv5_start (fun _ =>
           Call (discv5_on "discovered")
             (Call (setTimeout_findPeers (num 1)) Return)))).

Definition stop : Task :=
  GetStarted (fun is_started =>
    if negb is_started then Return
    else
      SetStarted false
        (Call (discv5_off "discovered")
           (await discv5_stop (fun _ => Return)))).

(** The [while] loop is unrolled [fuel] times; [Unfinished] marks the
    point where the unrolling stops. *)
Fixpoint findPeers (fuel : nat) : Task :=
  match fuel with
  | O => Unfinished
  | S fuel' =>
      GetStarted (fun is_started =>
        if is_started then
          RandomBytes 32 (fun bytes =>
            await (discv5_findNode (createNodeId (toBuffer bytes)))
              (fun enrs =>
                 GetStarted (fun still_started =>
                   if negb still_started then Return
                   else
                     seq
                       (forEach enrs (fun enr =>
                          seq (handleEnr (EnrObj enr)) (Yield Return)))
                       (GetLookupInterval (fun ms =>
                          await (setTimeout_resolve ms) (fun _ =>
                            findPeers fuel'))))))
        else Return)
  end.

(** ** Running a task *)

(** Calls other parties make on the controller while a task is
    suspended.  Only [start] and [stop] write a field. *)
Inductive ExtCall : Type :=
| ExtStart
| ExtStop.

Definition method (call : ExtCall) : Task :=
  match call with
  | ExtStart => start
  | ExtStop => stop
  end.

(** One resumption of a suspended task: what happened in the meantime and
    how the engine answers. *)
Record Turn : Type := {
  meanwhile : list ExtCall;
  failure : option Error;
  found : list ENR
}.

Record Machine : Type := {
  self : Discv5Discovery;
  turns : list Turn;
  entropy : list Buffer;
  trace : list Event;
  microtasks : list Task;
  unhandled : list Error
}.

Inductive Outcome : Type :=
| Returned
| Threw (e : Error)
| Suspended (t : Task)
| OutOfFuel.

Definition set_self (c : Discv5Discovery) (m : Machine) : Machine :=
  {| self := c; turns := turns m; entropy := entropy m; trace := trace m;
     microtasks := microtasks m; unhandled := unhandled m |}.

Definition set_turns (ts : list Turn) (m : Machine) : Machine :=
  {| self := self m; turns := ts; entropy := entropy m; trace := trace m;
     microtasks := microtasks m; unhandled := unhandled m |}.

Definition set_entropy (bs : list Buffer) (m : Machine) : Machine :=
  {| self := self m; turns := turns m; entropy := bs; trace := trace m;
     microtasks := microtasks m; unhandled := unhandled m |}.

Definition log (ev : Event) (m : Machine) : Machine :=
  {| self := self m; turns := turns m; entropy := entropy m;
     trace := trace m ++ [ev];
     microtasks := microtasks m; unhandled := unhandled m |}.

(** The promise of a detached task is dropped: a suspended task goes to
    the microtask queue, a rejection is left unhandled. *)
Definition dropped (o : Outcome) (m : Machine) : Machine :=
  {| self := self m; turns := turns m; entropy := entropy m; trace := trace m;
     microtasks :=
       microtasks m ++ match o with Suspended p => [p] | _ => [] end;
     unhandled :=
       unhandled m ++ match o with Threw e => [e] | _ => [] end |}.

Definition set_started (b : bool) (c : Discv5Discovery) : Discv5Discovery :=
  {| started := b; lookupInterval := lookupInterval c |}.

Definition set_lookupInterval (n : number) (c : Discv5Discovery)
  : Discv5Discovery :=
  {| started := started c; lookupInterval := n |}.

Definition settle (w : Turn) (op : AsyncOp) : Settled (answer op) :=
  match op as o return Settled (answer o) with
  | discv5_start =>
      match failure w with Some e => Rejected e | None => Resolved tt end
  | discv5_stop =>
      match failure w with Some e => Rejected e | None => Resolved tt end
  | discv5_findNode _ =>
      match failure w with
      | Some e => Rejected e
      | None => Resolved (found w)
      end
  | enr_peerId e => peerId e
  | setTimeout_resolve _ => Resolved tt
  end.

Definition Interference : Type :=
  list ExtCall -> Discv5Discovery -> Discv5Discovery.

Definition resumed (intf : Interference) (w : Turn) (rest : list Turn)
    (m : Machine) : Machine :=
  set_turns rest (set_self (intf (meanwhile w) (self m)) m).

(** A task runs until it returns, throws or has to wait with no turn left
    in the schedule; every [await] takes one turn. *)
Fixpoint exec (intf : Interference) (t : Task) (m : Machine)
  : Outcome * Machine :=
  match t with
  | Return => (Returned, m)
  | Throw e => (Threw e, m)
  | Unfinished => (OutOfFuel, m)
  | GetStarted k => exec intf (k (started (self m))) m
  | SetStarted b k => exec intf k (set_self (set_started b (self m)) m)
  | GetLookupInterval k => exec intf (k (lookupInterval (self m))) m
  | SetLookupInterval n k =>
      exec intf k (set_self (set_lookupInterval n (self m)) m)
  | RandomBytes n k =>
      match entropy m with
      | bytes :: rest => exec intf (k bytes) (set_entropy rest m)
      | [] => exec intf (k (repeat Byte.x00 n)) m
      end
  | Call c k => exec intf k (log (did c) m)
  | Detach d k =>
      let r := exec intf d (set_turns [] m) in
      exec intf k (dropped (fst r) (set_turns (turns m) (snd r)))
  | Invoke op k =>
      let m' := log (began op) m in
      match turns m' with
      | [] => (Suspended (Wait op k), m')
      | w :: rest => exec intf (k (settle w op)) (resumed intf w rest m')
      end
  | Wait op k =>
      match turns m with
      | [] => (Suspended (Wait op k), m)
      | w :: rest => exec intf (k (settle w op)) (resumed intf w rest m)
      end
  | Yield k =>
      match turns m with
      | [] => (Suspended (Yield k), m)
      | w :: rest => exec intf k (resumed intf w rest m)
      end
  end.

Definition boot (c : Discv5Discovery) (ts : list Turn) (bs : list Buffer)
  : Machine :=
  {| self := c; turns := ts; entropy := bs; trace := [];
     microtasks := []; unhandled := [] |}.

(** The synchronous part of a call made by another party. *)
Definition called (call : ExtCall) (c : Discv5Discovery) : Discv5Discovery :=
  self (snd (exec (fun _ c' => c') (method call) (boot c [] []))).

Definition interfere : Interference :=
  fun calls c => fold_left (fun c' call => called call c') calls c.

Definition run (t : Task) (m : Machine) : Outcome * Machine :=
  exec interfere t m.

(** Resuming what a run left suspended. *)
Definition resume (r : Outcome * Machine) (ts : list Turn)
  : Outcome * Machine :=
  match fst r with
  | Suspended p => run p (set_turns ts (snd r))
  | _ => r
  end.

(** A resumption during which nobody else touches the controller. *)
Definition still : Turn :=
  {| meanwhile := []; failure := None; found := [] |}.

(** The microtask queue is run in order, nothing else in between. *)
Fixpoint drain (queue : list Task) (m : Machine) : Machine :=
  match queue with
  | [] => m
  | p :: rest =>
      let r := run p (set_turns [still] m) in
      drain rest (dropped (fst r) (set_turns (turns m) (snd r)))
  end.

Definition flush (m : Machine) : Machine :=
  drain (microtasks m)
    {| self := self m; turns := turns m; entropy := entropy m;
       trace := trace m; microtasks := []; unhandled := unhandled m |}.

(** ** Reading a trace *)

Fixpoint peers (tr : list Event) : list PeerInfo :=
  match tr with
  | [] => []
  | did (emit event payload) :: rest =>
      if String.eqb event "peer" then payload :: peers rest else peers rest
  | _ :: rest => peers rest
  end.

Fixpoint engine_starts (tr : list Event) : nat :=
  match tr with
  | [] => 0
  | began discv5_start :: rest => S (engine_starts rest)
  | _ :: rest => engine_starts rest
  end.

Fixpoint subscriptions (tr : list Event) : nat :=
  match tr with
  | [] => 0
  | did (discv5_on _) :: rest => S (subscriptions rest)
  | _ :: rest => subscriptions rest
  end.

Fixpoint stored (tr : list Event) : list ENR :=
  match tr with
  | [] => []
  | did (discv5_addEnr e) :: rest => e :: stored rest
  | _ :: rest => stored rest
  end.

Fixpoint waits (tr : list Event) : list number :=
  match tr with
  | [] => []
  | began (setTimeout_resolve ms) :: rest => ms :: waits rest
  | _ :: rest => waits rest
  end.

(** ** What construction does with one boot record *)

(** The strict path lets the record through. *)
Definition accepted (enr : ENRInput) : bool :=
  match decode enr with
  | inr d =>
      match udp d, udp6 d with
      | None, None => false
      | _, _ => true
      end
  | inl _ => false
  end.

(** The calls seen for an accepted record: the engine stores it, then the
    lazy path asks for its peer id when it has a TCP location. *)
Definition boot_calls (enr : ENRInput) : list Event :=
  match decode enr with
  | inr d =>
      did (discv5_addEnr d) ::
      match getLocationMultiaddr d "tcp" with
      | Some _ => [began (enr_peerId d)]
      | None => []
      end
  | inl _ => []
  end.

(** The event the lazy path owes for a record. *)
Definition boot_peers (enr : ENRInput) : list PeerInfo :=
  match decode enr with
  | inr d =>
      match getLocationMultiaddr d "tcp", peerId d with
      | Some t, Resolved peer =>
          [{| id := peer;
              multiaddrs :=
                match getLocationMultiaddr d "udp" with
                | Some u => [t; u]
                | None => [t]
                end |}]
      | _, _ => []
      end
  | inl _ => []
  end.

(** What the lazy path still has to do for a record once it has asked
    for the peer id. *)
Definition boot_pending (enr : ENRInput) : list Task :=
  match decode enr with
  | inr d =>
      match getLocationMultiaddr d "tcp" with
      | Some t =>
          [Wait (enr_peerId d) (fun r =>
             match r with
             | Resolved peer =>
                 Call (emit "peer"
                         {| id := peer;
                            multiaddrs :=
                              match getLocationMultiaddr d "udp" with
                              | Some u => [t; u]
                              | None => [t]
                              end |})
                   Return
             | Rejected e => Throw e
             end)]
      | None => []
      end
  | inl _ => []
  end.

(** From [m] to [m'] the interval field keeps its value and every timer
    that was set waits for that value. *)
Definition steady (m m' : Machine) : Prop :=
  lookupInterval (self m') = lookupInterval (self m) /\
  exists extra,
    trace m' = trace m ++ extra /\
    Forall (fun ms => ms = lookupInterval (self m)) (waits extra).

(** ** Further readings of a trace *)

Fixpoint lookups (tr : list Event) : nat :=
  match tr with
  | [] => 0
  | began (discv5_findNode _) :: rest => S (lookups rest)
  | _ :: rest => lookups rest
  end.

Fixpoint engine_stops (tr : list Event) : nat :=
  match tr with
  | [] => 0
  | began discv5_stop :: rest => S (engine_stops rest)
  | _ :: rest => engine_stops rest
  end.

Fixpoint unsubscriptions (tr : list Event) : nat :=
  match tr with
  | [] => 0
  | did (discv5_off _) :: rest => S (unsubscriptions rest)
  | _ :: rest => unsubscriptions rest
  end.

Fixpoint scheduled (tr : list Event) : list number :=
  match tr with
  | [] => []
  | did (setTimeout_findPeers ms) :: rest => ms :: scheduled rest
  | _ :: rest => scheduled rest
  end.


(** The calls found in the constructor and in what it calls. *)
Definition construction_call (ev : Event) : bool :=
  match ev with
  | did (Discv5_create _ _ _) => true
  | did (discv5_addEnr _) => true
  | began (enr_peerId _) => true
  | _ => false
  end.

(** The calls found in [findPeers] and in what it calls. *)
Definition loop_call (ev : Event) : bool :=
  match ev with
  | began (discv5_findNode _) => true
  | began (enr_peerId _) => true
  | began (setTimeout_resolve _) => true
  | did (emit _ _) => true
  | _ => false
  end.

(** From [m] to [m'] only calls that [P] allows were made. *)
Definition only (P : Event -> bool) (m m' : Machine) : Prop :=
  exists extra, trace m' = trace m ++ extra /\ forallb P extra = true.

(** The peer-id promise of the record resolves. *)
Definition resolves (e : ENR) : bool :=
  match peerId e with
  | Resolved _ => true
  | Rejected _ => false
  end.

(** The number of [await]s in the loop over the looked-up records: one for
    each [await this.handleEnr(enr)], one more inside [handleEnr] when the
    record has a TCP location. *)
Fixpoint ingest_turns (enrs : list ENR) : nat :=
  match enrs with
  | [] => 0
  | e :: rest =>
      match getLocationMultiaddr e "tcp" with
      | Some _ => 2 + ingest_turns rest
      | None => 1 + ingest_turns rest
      end
  end.

(** What [addEnr] throws for a record it does not accept. *)
Definition rejection (enr : ENRInput) : Error :=
  match decode enr with
  | inl e => e
  | inr _ => InvalidInputError
  end.

(** The records [addEnr] hands to the engine. *)
Fixpoint decoded_all (boots : list ENRInput) : list ENR :=
  match boots with
  | [] => []
  | enr :: rest =>
      match decode enr with
      | inr d => d :: decoded_all rest
      | inl _ => decoded_all rest
      end
  end.

End Controller.

(** ** A concrete record class

    Used for the examples: the theorems below hold for every
    implementation of [Imports]. *)
Module Sample.

Record Endpoint : Type := {
  host : string;
  transport : string;
  port : Z
}.

(** Modelled from the spec: the record class of [../enr] is missing from
    the sources.  A record has an identity key and "zero or more declared
    transport endpoints keyed by transport kind [...], each optionally
    present over two address families"; here an endpoint of a family is
    present when the record has both an address of that family and a port
    for the transport. *)
Record Rec : Type := {
  ip : option string;
  ip6 : option string;
  udp_port : option Z;
  udp6_port : option Z;
  tcp_port : option Z;
  tcp6_port : option Z;
  key : string
}.

Definition endpoint (addr : option string) (proto : string)
    (p : option Z) : option Endpoint :=
  match addr, p with
  | Some h, Some n => Some {| host := h; transport := proto; port := n |}
  | _, _ => None
  end.

Definition first_of (a b : option Endpoint) : option Endpoint :=
  match a with
  | Some _ => a
  | None => b
  end.

(** Modelled from the spec: [getLocationMultiaddr] of [../enr] is missing
    from the sources; ["udp"] and ["tcp"] give the endpoint of the first
    address family that has one, the other protocol names one family. *)
Definition location (r : Rec) (protocol : string) : option Endpoint :=
  if String.eqb protocol "udp4" then endpoint (ip r) "udp" (udp_port r)
  else if String.eqb protocol "udp6" then endpoint (ip6 r) "udp" (udp6_port r)
  else if String.eqb protocol "tcp4" then endpoint (ip r) "tcp" (tcp_port r)
  else if String.eqb protocol "tcp6" then endpoint (ip6 r) "tcp" (tcp6_port r)
  else if String.eqb protocol "udp" then
    first_of (endpoint (ip r) "udp" (udp_port r))
             (endpoint (ip6 r) "udp" (udp6_port r))
  else if String.eqb protocol "tcp" then
    first_of (endpoint (ip r) "tcp" (tcp_port r))
             (endpoint (ip6 r) "tcp" (tcp6_port r))
  else None.

Definition udp_only : Rec :=
  {| ip := Some "10.0.0.1"; ip6 := None;
     udp_port := Some 9000%Z; udp6_port := None;
     tcp_port := None; tcp6_port := None; key := "alice" |}.

Definition tcp_only : Rec :=
  {| ip := Some "10.0.0.2"; ip6 := None;
     udp_port := None; udp6_port := None;
     tcp_port := Some 9001%Z; tcp6_port := None; key := "bob" |}.

Definition both : Rec :=
  {| ip := Some "10.0.0.3"; ip6 := None;
     udp_port := Some 9000%Z; udp6_port := None;
     tcp_port := Some 9001%Z; tcp6_port := None; key := "carol" |}.

Definition both6 : Rec :=
  {| ip := None; ip6 := Some "fe80::4";
     udp_port := None; udp6_port := Some 9000%Z;
     tcp_port := None; tcp6_port := Some 9001%Z; key := "dave" |}.

Definition neither : Rec :=
  {| ip := Some "10.0.0.5"; ip6 := None;
     udp_port := None; udp6_port := None;
     tcp_port := None; tcp6_port := None; key := "erin" |}.

(** Modelled from the spec: [ENR.decodeTxt] of [../enr] is missing from the
    sources; it "fails with a DecodeError if malformed".  Three texts
    stand for well-formed encodings, every other text is malformed. *)
Definition decode_text (txt : string) : option Rec :=
  if String.eqb txt "enr:udp-only" then Some udp_only
  else if String.eqb txt "enr:both" then Some both
  else if String.eqb txt "enr:neither" then Some neither
  else None.

#[export] Instance imports : Imports := {|
  ENR := Rec;
  Multiaddr := Endpoint;
  PeerId := string;
  NodeId := Buffer;
  decodeTxt := decode_text;
  udp := udp_port;
  udp6 := udp6_port;
  getLocationMultiaddr := location;
  peerId := fun r => Resolved (key r);
  createNodeId := fun bytes => bytes
|}.

Definition stopped : Discv5Discovery :=
  {| started := false; lookupInterval := num 5000 |}.

Definition running : Discv5Discovery :=
  {| started := true; lookupInterval := num 5000 |}.

(** Nothing else happens and the engine answers with [enrs]. *)
Definition quiet (enrs : list Rec) : Turn :=
  {| meanwhile := []; failure := None; found := enrs |}.

(** [stop()] is called while the task is suspended. *)
Definition stopping (enrs : list Rec) : Turn :=
  {| meanwhile := [ExtStop]; failure := None; found := enrs |}.

(** The engine rejects. *)
Definition failing : Turn :=
  {| meanwhile := []; failure := Some (Rejection "engine"); found := [] |}.

Definition options (boots : list ENRInput) (interval : option number)
  : IDiscv5DiscoveryOptions :=
  {| opt_enr := EnrObj neither; opt_peerId := "local";
     opt_bindAddr := "/ip4/0.0.0.0/udp/9000"; opt_bootEnrs := boots;
     opt_enabled := true; opt_lookupInterval := interval |}.

Definition anon : Rec :=
  {| ip := Some "10.0.0.6"; ip6 := None;
     udp_port := Some 9000%Z; udp6_port := None;
     tcp_port := Some 9001%Z; tcp6_port := None; key := "" |}.

(** Modelled from the spec: [peerId] of [../enr] is missing from the
    sources; the derivation of the peer identity "may be
    asynchronous/suspending" and its failure is "fatal/unexpected".  Here
    it fails for a record whose key is empty. *)
Definition keyed_imports : Imports := {|
  ENR := Rec;
  Multiaddr := Endpoint;
  PeerId := string;
  NodeId := Buffer;
  decodeTxt := decode_text;
  udp := udp_port;
  udp6 := udp6_port;
  getLocationMultiaddr := location;
  peerId := fun r =>
    if String.eqb (key r) "" then Rejected (Rejection "no key")
    else Resolved (key r);
  createNodeId := fun bytes => bytes
|}.

Definition anon_input : @ENRInput keyed_imports := @EnrObj keyed_imports anon.

Definition keyed_still : @Turn keyed_imports :=
  @Build_Turn keyed_imports [] None [].

(** [start()] is called while the task is suspended. *)
Definition starting (enrs : list Rec) : Turn :=
  {| meanwhile := [ExtStart]; failure := None; found := enrs |}.

End Sample.

(** * Properties *)

Section Properties.

Context {imports : Imports}.

(** ** Sequencing and interference *)

Lemma exec_seq (intf : Interference) (t k : Task) :
  forall m,
    exec intf (seq t k) m =
    match exec intf t m with
    | (Returned, m1) => exec intf k m1
    | (Suspended p, m1) => (Suspended (seq p k), m1)
    | other => other
    end.
Proof.
  induction t as [ | e | | f IH | b t' IH | f IH | n t' IH | n f IH
                 | c t' IH | d _ t' IH | op f IH | op f IH | t' IH ];
    intro m; simpl; auto.
  - destruct (entropy m); apply IH.
  - destruct (turns m); [reflexivity | apply IH].
  - destruct (turns m); [reflexivity | apply IH].
  - destruct (turns m); [reflexivity | apply IH].
Qed.

Lemma called_start (c : Discv5Discovery) :
  called ExtStart c = if started c then c else set_started true c.
Proof.
  unfold called, method, start. simpl.
  destruct (started c); reflexivity.
Qed.

Lemma called_stop (c : Discv5Discovery) :
  called ExtStop c = if started c then set_started false c else c.
Proof.
  unfold called, method, stop. simpl.
  destruct (started c); reflexivity.
Qed.

Lemma called_lookupInterval (call : ExtCall) (c : Discv5Discovery) :
  lookupInterval (called call c) = lookupInterval c.
Proof.
  destruct call; [rewrite called_start | rewrite called_stop];
    destruct (started c); reflexivity.
Qed.

Lemma interfere_lookupInterval (calls : list ExtCall) :
  forall c, lookupInterval (interfere calls c) = lookupInterval c.
Proof.
  unfold interfere.
  induction calls as [ | call calls IH]; intro c; simpl; [reflexivity | ].
  rewrite IH. apply called_lookupInterval.
Qed.

Lemma interfere_keeps_running (calls : list ExtCall) :
  forall c,
    ~ In ExtStop calls -> started c = true ->
    started (interfere calls c) = true.
Proof.
  unfold interfere.
  induction calls as [ | call calls IH]; intros c Hno Hc; simpl; [exact Hc | ].
  apply IH.
  - intro Hin. apply Hno. right. exact Hin.
  - destruct call.
    + rewrite called_start, Hc. exact Hc.
    + exfalso. apply Hno. left. reflexivity.
Qed.

Lemma interfere_stop_last (calls : list ExtCall) (c : Discv5Discovery) :
  started (interfere (calls ++ [ExtStop]) c) = false.
Proof.
  unfold interfere. rewrite fold_left_app. simpl.
  rewrite called_stop.
  destruct (started (fold_left _ calls c)) eqn:E; [reflexivity | exact E].
Qed.

(** ** Strict ingestion: [addEnr] *)

(** C4: a record whose [udp] and [udp6] are both undefined makes [addEnr]
    throw before anything else happens, so [discv5.addEnr] is never
    called; a record with at least one of them is handed to
    [discv5.addEnr] and [addEnr] returns.  Both hold for a record object
    and for a text that decodes, and need no resumption: [addEnr] is
    synchronous. *)
Theorem addEnr_requires_udp :
  forall (enr : ENRInput) (d : ENR) (m : Machine),
    decode enr = inr d ->
    (udp d = None -> udp6 d = None ->
     run (addEnr enr) m = (Threw InvalidInputError, m) /\
     stored (trace (snd (run (addEnr enr) m))) = stored (trace m)) /\
    (udp d <> None \/ udp6 d <> None ->
     run (addEnr enr) m = (Returned, log (did (discv5_addEnr d)) m)).
Proof.
  intros enr d m Hd. unfold run, addEnr, decoded. rewrite Hd. split.
  - intros H4 H6. rewrite H4, H6. simpl. split; reflexivity.
  - intros [H | H].
    + destruct (udp d) as [p | ]; [ | congruence].
      destruct (udp6 d); reflexivity.
    + destruct (udp6 d) as [p | ]; [ | congruence].
      destruct (udp d); reflexivity.
Qed.

(** ** Lazy ingestion: [handleEnr] *)

(** C3 (amended): a record without a TCP location makes [handleEnr] return
    at once: no event, no error, nothing changed, whatever its UDP
    location is; in particular for a record with neither. *)
Theorem handleEnr_ignores_without_tcp :
  forall (enr : ENRInput) (d : ENR) (m : Machine),
    decode enr = inr d ->
    getLocationMultiaddr d "tcp" = None ->
    run (handleEnr enr) m = (Returned, m).
Proof.
  intros enr d m Hd Htcp. unfold run, handleEnr, decoded.
  rewrite Hd, Htcp. reflexivity.
Qed.

(** C1 (amended): a record with a UDP location and no TCP location yields
    no event; the event with a one-element address list is the one of a
    record with a TCP location and no UDP location, and the element is the
    TCP location. *)
Theorem handleEnr_single_address :
  forall (enr : ENRInput) (d : ENR) (a : Multiaddr)
         (c : Discv5Discovery) (w : Turn) (ts : list Turn) (bs : list Buffer),
    decode enr = inr d ->
    (getLocationMultiaddr d "udp" = Some a ->
     getLocationMultiaddr d "tcp" = None ->
     fst (run (handleEnr enr) (boot c (w :: ts) bs)) = Returned /\
     trace (snd (run (handleEnr enr) (boot c (w :: ts) bs))) = []) /\
    (forall peer : PeerId,
       getLocationMultiaddr d "tcp" = Some a ->
       getLocationMultiaddr d "udp" = None ->
       peerId d = Resolved peer ->
       fst (run (handleEnr enr) (boot c (w :: ts) bs)) = Returned /\
       peers (trace (snd (run (handleEnr enr) (boot c (w :: ts) bs)))) =
         [{| id := peer; multiaddrs := [a] |}]).
Proof.
  intros enr d a c w ts bs Hd. unfold run, handleEnr, decoded. rewrite Hd.
  split.
  - intros _ Htcp. rewrite Htcp. simpl. split; reflexivity.
  - intros peer Htcp Hudp Hid. rewrite Htcp, Hudp. simpl.
    rewrite Hid. simpl. split; reflexivity.
Qed.

(** C2 (amended): a record with both locations yields exactly one event,
    whose address list is the TCP location followed by the UDP
    location. *)
Theorem handleEnr_two_addresses :
  forall (enr : ENRInput) (d : ENR) (t u : Multiaddr) (peer : PeerId)
         (c : Discv5Discovery) (w : Turn) (ts : list Turn) (bs : list Buffer),
    decode enr = inr d ->
    getLocationMultiaddr d "tcp" = Some t ->
    getLocationMultiaddr d "udp" = Some u ->
    peerId d = Resolved peer ->
    fst (run (handleEnr enr) (boot c (w :: ts) bs)) = Returned /\
    peers (trace (snd (run (handleEnr enr) (boot c (w :: ts) bs)))) =
      [{| id := peer; multiaddrs := [t; u] |}].
Proof.
  intros enr d t u peer c w ts bs Hd Htcp Hudp Hid.
  unfold run, handleEnr, decoded. rewrite Hd, Htcp, Hudp. simpl.
  rewrite Hid. simpl. split; reflexivity.
Qed.

(** ** Lifecycle: [start] and [stop] *)

(** C7: [stop()] on a stopped controller changes nothing: the flag stays,
    no call reaches the engine, no handler is removed. *)
Theorem stop_when_stopped_is_noop :
  forall m : Machine,
    started (self m) = false ->
    run stop m = (Returned, m).
Proof.
  intros m H. unfold run, stop. simpl. rewrite H. reflexivity.
Qed.

Lemma start_when_started (m : Machine) :
  started (self m) = true -> run start m = (Returned, m).
Proof.
  intro H. unfold run, start. simpl. rewrite H. reflexivity.
Qed.

Lemma start_sets_flag (c : Discv5Discovery) (ts : list Turn)
    (bs : list Buffer) :
  Forall (fun w => ~ In ExtStop (meanwhile w)) ts ->
  started (self (snd (run start (boot c ts bs)))) = true.
Proof.
  intro Hts. destruct (started c) eqn:Hc.
  - rewrite start_when_started; [exact Hc | exact Hc].
  - unfold run, start. simpl. rewrite Hc. simpl.
    destruct ts as [ | w ts]; [reflexivity | ].
    assert (Hw : started (interfere (meanwhile w) (set_started true c)) = true).
    { apply interfere_keeps_running; [ | reflexivity].
      inversion Hts; assumption. }
    simpl. destruct (failure w); simpl; exact Hw.
Qed.

Lemma start_trace (c : Discv5Discovery) (ts : list Turn) (bs : list Buffer) :
  engine_starts (trace (snd (run start (boot c ts bs)))) <= 1 /\
  subscriptions (trace (snd (run start (boot c ts bs)))) <= 1.
Proof.
  unfold run, start. simpl. destruct (started c); simpl; [lia | ].
  destruct ts as [ | w ts]; simpl; [lia | ].
  destruct (failure w); simpl; lia.
Qed.

(** C6: after a first [start()], finished, failed or still waiting for
    the engine, and with no [stop()] in between, a second [start()]
    returns at once and changes nothing; over both calls the engine is
    started at most once and the handler subscribed at most once. *)
Theorem start_twice_is_idempotent :
  forall (c : Discv5Discovery) (ts1 ts2 : list Turn) (bs1 bs2 : list Buffer),
    Forall (fun w => ~ In ExtStop (meanwhile w)) ts1 ->
    let first := run start (boot c ts1 bs1) in
    let second := run start (boot (self (snd first)) ts2 bs2) in
    second = (Returned, boot (self (snd first)) ts2 bs2) /\
    engine_starts (trace (snd first) ++ trace (snd second)) <= 1 /\
    subscriptions (trace (snd first) ++ trace (snd second)) <= 1.
Proof.
  intros c ts1 ts2 bs1 bs2 Hts first second.
  assert (Hsecond : second = (Returned, boot (self (snd first)) ts2 bs2)).
  { apply start_when_started. simpl. apply start_sets_flag. exact Hts. }
  rewrite Hsecond. simpl. rewrite app_nil_r.
  split; [reflexivity | apply start_trace].
Qed.

(** C9: when the engine rejects [start()], the caller gets the rejection,
    the handler is not subscribed and the loop is not scheduled, but the
    flag stays set: the next [start()] does nothing and the next [stop()]
    removes the handler and stops the engine. *)
Theorem failed_start_leaves_flag_set :
  forall (c : Discv5Discovery) (w : Turn) (ts : list Turn) (bs : list Buffer)
         (e : Error),
    started c = false ->
    failure w = Some e ->
    ~ In ExtStop (meanwhile w) ->
    let failed := run start (boot c (w :: ts) bs) in
    fst failed = Threw e /\
    started (self (snd failed)) = true /\
    trace (snd failed) = [began discv5_start] /\
    (forall ts' bs',
       run start (boot (self (snd failed)) ts' bs') =
       (Returned, boot (self (snd failed)) ts' bs')) /\
    (forall ts' bs',
       trace (snd (run stop (boot (self (snd failed)) ts' bs'))) =
       [did (discv5_off "discovered"); began discv5_stop]).
Proof.
  intros c w ts bs e Hc Hw Hno failed.
  assert (Hflag :
            started (interfere (meanwhile w) (set_started true c)) = true).
  { apply interfere_keeps_running; [exact Hno | reflexivity]. }
  unfold failed, run, start. simpl. rewrite Hc. simpl. rewrite Hw. simpl.
  repeat split; try reflexivity; try exact Hflag.
  - intros ts' bs'. rewrite Hflag. reflexivity.
  - intros ts' bs'. unfold stop. simpl. rewrite Hflag. simpl.
    destruct ts' as [ | w' ts']; simpl; [reflexivity | ].
    destruct (failure w'); reflexivity.
Qed.

(** ** The polling loop: [findPeers] *)

(** C5 (amended): when [stop()] is the last lifecycle call made while the
    lookup is in flight, the loop finds the flag cleared when the lookup
    returns, drops the records it got and returns: it asks for no peer id
    and emits no event, whatever the lookup found. *)
Theorem findPeers_discards_lookup_after_stop :
  forall (fuel : nat) (c : Discv5Discovery) (calls : list ExtCall)
         (w : Turn) (ts : list Turn) (bs : list Buffer),
    started c = true ->
    meanwhile w = calls ++ [ExtStop] ->
    failure w = None ->
    let r := run (findPeers (S fuel)) (boot c (w :: ts) bs) in
    fst r = Returned /\
    (exists target, trace (snd r) = [began (discv5_findNode target)]) /\
    peers (trace (snd r)) = [] /\
    started (self (snd r)) = false /\
    turns (snd r) = ts.
Proof.
  intros fuel c calls w ts bs Hc Hw Hok r.
  assert (Hflag : started (interfere (meanwhile w) c) = false).
  { rewrite Hw. apply interfere_stop_last. }
  unfold r, run. simpl. rewrite Hc.
  destruct bs as [ | bytes bs]; simpl; rewrite Hok; simpl;
    rewrite Hflag; simpl; repeat split;
    try reflexivity; try exact Hflag; eexists; reflexivity.
Qed.

(** ** Construction *)

Lemma peers_app (a b : list Event) : peers (a ++ b) = peers a ++ peers b.
Proof.
  induction a as [ | ev a IH]; simpl; [reflexivity | ].
  destruct ev as [call | op]; [ | exact IH].
  destruct call; try exact IH.
  destruct (String.eqb event "peer"); simpl; rewrite IH; reflexivity.
Qed.

Lemma waits_app (a b : list Event) : waits (a ++ b) = waits a ++ waits b.
Proof.
  induction a as [ | ev a IH]; simpl; [reflexivity | ].
  destruct ev as [call | op]; [exact IH | ].
  destruct op; simpl; rewrite IH; reflexivity.
Qed.

(** The body of the [forEach] of the constructor, on an accepted
    record. *)
Lemma boot_record_effect (intf : Interference) (enr : ENRInput) (m : Machine) :
  accepted enr = true ->
  let r := exec intf (seq (addEnr enr) (Detach (handleEnr enr) Return)) m in
  fst r = Returned /\
  self (snd r) = self m /\
  turns (snd r) = turns m /\
  trace (snd r) = trace m ++ boot_calls enr /\
  microtasks (snd r) = microtasks m ++ boot_pending enr /\
  unhandled (snd r) = unhandled m.
Proof.
  intros Hacc r. subst r. unfold accepted in Hacc.
  unfold boot_calls, boot_pending.
  rewrite exec_seq. unfold addEnr, handleEnr, decoded.
  destruct (decode enr) as [e | d]; [discriminate | ].
  assert (Hadd : exec intf
                   match udp d, udp6 d with
                   | None, None => Throw InvalidInputError
                   | _, _ => Call (discv5_addEnr d) Return
                   end m = (Returned, log (did (discv5_addEnr d)) m)).
  { destruct (udp d), (udp6 d); try reflexivity. discriminate. }
  rewrite Hadd. simpl.
  destruct (getLocationMultiaddr d "tcp") as [t | ]; simpl.
  - rewrite <- app_assoc. simpl. rewrite app_nil_r.
    repeat split; reflexivity.
  - rewrite !app_nil_r. repeat split; reflexivity.
Qed.

Lemma boot_records_effect (intf : Interference) (boots : list ENRInput) :
  forall m : Machine,
    forallb accepted boots = true ->
    let r :=
      exec intf
        (forEach boots (fun bootEnr =>
           seq (addEnr bootEnr) (Detach (handleEnr bootEnr) Return))) m in
    fst r = Returned /\
    self (snd r) = self m /\
    turns (snd r) = turns m /\
    trace (snd r) = trace m ++ flat_map boot_calls boots /\
    microtasks (snd r) = microtasks m ++ flat_map boot_pending boots /\
    unhandled (snd r) = unhandled m.
Proof.
  induction boots as [ | enr boots IH]; intros m Hacc; simpl.
  - rewrite !app_nil_r. repeat split; reflexivity.
  - simpl in Hacc. apply andb_prop in Hacc. destruct Hacc as [Henr Hrest].
    rewrite exec_seq.
    destruct (boot_record_effect intf enr m Henr)
      as (Ho & Hself & Hturns & Htrace & Hqueue & Hun).
    destruct (exec intf (seq (addEnr enr) (Detach (handleEnr enr) Return)) m)
      as [o m1].
    simpl in Ho, Hself, Hturns, Htrace, Hqueue, Hun. subst o.
    destruct (IH m1 Hrest) as (Ho' & Hself' & Hturns' & Htrace' & Hqueue' & Hun').
    rewrite Ho', Hself', Hturns', Htrace', Hqueue', Hun'.
    rewrite Hself, Hturns, Htrace, Hqueue, Hun, !app_assoc.
    repeat split; reflexivity.
Qed.

Lemma drain_app (q1 q2 : list Task) :
  forall m, drain (q1 ++ q2) m = drain q2 (drain q1 m).
Proof.
  induction q1 as [ | p q1 IH]; intro m; simpl; [reflexivity | apply IH].
Qed.

Lemma drain_boot_pending (enr : ENRInput) (m : Machine) :
  peers (trace (drain (boot_pending enr) m)) =
  peers (trace m) ++ boot_peers enr.
Proof.
  unfold boot_pending, boot_peers.
  destruct (decode enr) as [e | d]; simpl; [now rewrite app_nil_r | ].
  destruct (getLocationMultiaddr d "tcp") as [t | ]; simpl;
    [ | now rewrite app_nil_r].
  unfold run. simpl.
  destruct (peerId d) as [peer | e]; simpl.
  - rewrite peers_app. reflexivity.
  - now rewrite app_nil_r.
Qed.

Lemma drain_boot_records (boots : list ENRInput) :
  forall m,
    peers (trace (drain (flat_map boot_pending boots) m)) =
    peers (trace m) ++ flat_map boot_peers boots.
Proof.
  induction boots as [ | enr boots IH]; intro m; simpl.
  - now rewrite app_nil_r.
  - rewrite drain_app, IH, drain_boot_pending, app_assoc. reflexivity.
Qed.

Lemma peers_boot_calls (boots : list ENRInput) :
  peers (flat_map boot_calls boots) = [].
Proof.
  induction boots as [ | enr boots IH]; simpl; [reflexivity | ].
  rewrite peers_app, IH, app_nil_r. unfold boot_calls.
  destruct (decode enr) as [e | d]; [reflexivity | ].
  destruct (getLocationMultiaddr d "tcp"); reflexivity.
Qed.

(** C8 (amended): when every boot record passes the strict path,
    construction returns with the flag still cleared and has, record by
    record and in order, handed the record to the engine's store and then
    entered the lazy path for it; the events of the lazy path are queued
    behind the peer-id promise and come out, in boot order, when the queue
    is run. *)
Theorem constructor_ingests_boot_records :
  forall (options : IDiscv5DiscoveryOptions) (c : Discv5Discovery)
         (ts : list Turn) (bs : list Buffer),
    forallb accepted (opt_bootEnrs options) = true ->
    let r := run (constructor options) (boot c ts bs) in
    fst r = Returned /\
    started (self (snd r)) = false /\
    trace (snd r) =
      did (Discv5_create (opt_enr options) (opt_peerId options)
             (opt_bindAddr options))
      :: flat_map boot_calls (opt_bootEnrs options) /\
    peers (trace (snd r)) = [] /\
    peers (trace (flush (snd r))) =
      flat_map boot_peers (opt_bootEnrs options).
Proof.
  intros options c ts bs Hacc r. subst r. unfold run, constructor. simpl.
  match goal with
  | |- context [exec interfere ?t ?m] =>
      destruct (boot_records_effect interfere (opt_bootEnrs options) m Hacc)
        as (Ho & Hself & Hturns & Htrace & Hqueue & Hun);
      destruct (exec interfere t m) as [o m1] eqn:Hrun
  end.
  simpl in Ho, Hself, Hturns, Htrace, Hqueue, Hun. simpl.
  assert (Hpeers : peers (trace m1) = []).
  { rewrite Htrace. simpl. apply peers_boot_calls. }
  repeat split.
  - exact Ho.
  - rewrite Hself. reflexivity.
  - exact Htrace.
  - exact Hpeers.
  - unfold flush. rewrite Hqueue. simpl.
    rewrite drain_boot_records. simpl. rewrite Hpeers. reflexivity.
Qed.

(** ** The lookup interval *)

Lemma steady_refl (m : Machine) : steady m m.
Proof.
  split; [reflexivity | ]. exists []. rewrite app_nil_r.
  split; [reflexivity | constructor].
Qed.

Lemma steady_same (m0 m m' : Machine) :
  lookupInterval (self m') = lookupInterval (self m) ->
  trace m' = trace m ->
  steady m0 m -> steady m0 m'.
Proof.
  intros Hself Htrace [Hl (extra & Hex & Hall)]. split.
  - rewrite Hself. exact Hl.
  - exists extra. rewrite Htrace. split; assumption.
Qed.

Lemma steady_log (m0 m : Machine) (ev : Event) :
  Forall (fun ms => ms = lookupInterval (self m)) (waits [ev]) ->
  steady m0 m -> steady m0 (log ev m).
Proof.
  intros Hev [Hl (extra & Hex & Hall)]. split; [exact Hl | ].
  exists (extra ++ [ev]). simpl. rewrite Hex, app_assoc.
  split; [reflexivity | ].
  rewrite waits_app. apply Forall_app. split; [exact Hall | ].
  rewrite <- Hl. exact Hev.
Qed.

Lemma steady_resumed (m0 m : Machine) (w : Turn) (rest : list Turn) :
  steady m0 m -> steady m0 (resumed interfere w rest m).
Proof.
  apply steady_same; [ | reflexivity].
  simpl. apply interfere_lookupInterval.
Qed.


Lemma addEnr_steady (enr : ENRInput) (m0 m : Machine) :
  steady m0 m -> steady m0 (snd (run (addEnr enr) m)).
Proof.
  intro H. unfold run, addEnr, decoded.
  destruct (decode enr) as [e | d]; [exact H | ].
  destruct (udp d), (udp6 d); simpl; try exact H;
    apply steady_log; try exact H; constructor.
Qed.

Lemma handleEnr_steady (enr : ENRInput) (m0 m : Machine) :
  steady m0 m -> steady m0 (snd (run (handleEnr enr) m)).
Proof.
  intro H. unfold run, handleEnr, decoded.
  destruct (decode enr) as [e | d]; [exact H | ].
  destruct (getLocationMultiaddr d "tcp") as [t | ]; [ | exact H].
  assert (Hlog : steady m0 (log (began (enr_peerId d)) m)).
  { apply steady_log; [constructor | exact H]. }
  simpl. destruct (turns m) as [ | w rest]; [exact Hlog | ].
  simpl. destruct (peerId d) as [peer | e]; simpl.
  - apply steady_log; [constructor | ].
    apply (steady_resumed w rest Hlog).
  - apply (steady_resumed w rest Hlog).
Qed.


Lemma lookup_loop_steady (enrs : list ENR) :
  forall m0 m,
    steady m0 m ->
    steady m0
      (snd (run (forEach enrs (fun enr =>
                   seq (handleEnr (EnrObj enr)) (Yield Return))) m)).
Proof.
  unfold run.
  induction enrs as [ | enr enrs IH]; intros m0 m H; simpl; [exact H | ].
  rewrite !exec_seq.
  pose proof (handleEnr_steady (EnrObj enr) H) as Hh. unfold run in Hh.
  destruct (exec interfere (handleEnr (EnrObj enr)) m) as [o m1].
  simpl in Hh. destruct o; simpl; try exact Hh.
  destruct (turns m1) as [ | w rest]; simpl; [exact Hh | ].
  apply IH. apply steady_resumed. exact Hh.
Qed.

Lemma findPeers_steady (fuel : nat) :
  forall m0 m,
    steady m0 m -> steady m0 (snd (run (findPeers fuel) m)).
Proof.
  unfold run.
  induction fuel as [ | fuel IH]; intros m0 m H; [exact H | ].
  assert (Hstep :
    forall target m',
      steady m0 m' ->
      steady m0
        (snd (exec interfere
                (await (discv5_findNode target) (fun enrs =>
                   GetStarted (fun still_started =>
                     if negb still_started then Return
                     else
                       seq
                         (forEach enrs (fun enr =>
                            seq (handleEnr (EnrObj enr)) (Yield Return)))
                         (GetLookupInterval (fun ms =>
                            await (setTimeout_resolve ms) (fun _ =>
                              findPeers fuel)))))) m'))).
  { intros target m' H'.
    assert (Hlog : steady m0 (log (began (discv5_findNode target)) m')).
    { apply steady_log; [constructor | exact H']. }
    simpl. destruct (turns m') as [ | w rest]; [exact Hlog | ].
    pose proof (steady_resumed w rest Hlog) as Hres.
    simpl. destruct (failure w); simpl; [exact Hres | ].
    match goal with |- context [negb ?b] => destruct b end; simpl;
      [ | exact Hres].
    rewrite exec_seq.
    pose proof (lookup_loop_steady (found w) Hres) as Hloop.
    unfold run in Hloop.
    match type of Hloop with
    | steady _ (snd ?x) => destruct x as [o m1]
    end.
    simpl in Hloop. destruct o; simpl; try exact Hloop.
    assert (Hwait :
      steady m0
        (log (began (setTimeout_resolve (lookupInterval (self m1)))) m1)).
    { apply steady_log; [ | exact Hloop]. repeat constructor. }
    destruct (turns m1) as [ | w' rest']; [exact Hwait | ].
    simpl. apply IH. apply (steady_resumed w' rest' Hwait). }
  cbn [findPeers exec].
  destruct (started (self m)); [ | exact H].
  cbn [exec].
  destruct (entropy m) as [ | bytes rest].
  - apply Hstep. exact H.
  - apply Hstep. revert H. apply steady_same; reflexivity.
Qed.



End Properties.

(** * Further properties of the methods *)

Section Behaviour.

Context {imports : Imports}.

(** ** Ingestion of a single record *)

(** X1: when the peer-id promise of a record with a TCP location rejects,
    [handleEnr] rejects with the same error after having asked for the
    peer id, and emits nothing. *)
Theorem handleEnr_rejects_with_peerId :
  forall (enr : ENRInput) (d : ENR) (t : Multiaddr) (e : Error)
         (c : Discv5Discovery) (w : Turn) (ts : list Turn) (bs : list Buffer),
    decode enr = inr d ->
    getLocationMultiaddr d "tcp" = Some t ->
    peerId d = Rejected e ->
    let r := run (handleEnr enr) (boot c (w :: ts) bs) in
    fst r = Threw e /\
    trace (snd r) = [began (enr_peerId d)] /\
    peers (trace (snd r)) = [].
Proof.
  intros enr d t e c w ts bs Hd Htcp Hid r. subst r.
  unfold run, handleEnr, decoded. rewrite Hd, Htcp. simpl.
  rewrite Hid. simpl. repeat split; reflexivity.
Qed.


(** ** Lifecycle *)

Lemma interfere_keeps_stopped (calls : list ExtCall) :
  forall c,
    ~ In ExtStart calls -> started c = false ->
    started (interfere calls c) = false.
Proof.
  unfold interfere.
  induction calls as [ | call calls IH]; intros c Hno Hc; simpl; [exact Hc | ].
  apply IH.
  - intro Hin. apply Hno. right. exact Hin.
  - destruct call.
    + exfalso. apply Hno. left. reflexivity.
    + rewrite called_stop, Hc. exact Hc.
Qed.

(** X3: a [start()] the engine accepts, followed by a [stop()] the engine
    accepts, with no other lifecycle call in between: the handler is
    subscribed only after the engine has started, the loop is scheduled
    1 ms later, [stop()] removes the handler before it stops the engine,
    and the controller is back in the stopped state, from which
    [start()] starts the engine again. *)
Theorem start_then_stop_round_trip :
  forall (c : Discv5Discovery) (w1 w2 : Turn) (ts1 ts2 : list Turn)
         (bs1 bs2 : list Buffer),
    started c = false ->
    failure w1 = None -> meanwhile w1 = [] ->
    failure w2 = None -> meanwhile w2 = [] ->
    let up := run start (boot c (w1 :: ts1) bs1) in
    let down := run stop (boot (self (snd up)) (w2 :: ts2) bs2) in
    fst up = Returned /\
    trace (snd up) =
      [began discv5_start; did (discv5_on "discovered");
       did (setTimeout_findPeers (num 1))] /\
    started (self (snd up)) = true /\
    fst down = Returned /\
    trace (snd down) = [did (discv5_off "discovered"); began discv5_stop] /\
    self (snd down) = c /\
    (forall ts3 bs3,
       engine_starts
         (trace (snd (run start (boot (self (snd down)) ts3 bs3)))) = 1).
Proof.
  intros c w1 w2 ts1 ts2 bs1 bs2 Hc Hf1 Hm1 Hf2 Hm2 up down.
  subst up down. unfold run, start, stop. simpl. rewrite Hc. simpl.
  rewrite Hf1. unfold resumed. rewrite Hm1. simpl.
  rewrite Hf2. unfold resumed. rewrite Hm2. simpl.
  destruct c as [st li]. simpl in Hc. subst st. simpl.
  repeat split.
  intros ts3 bs3. destruct ts3 as [ | w3 ts3]; simpl; [reflexivity | ].
  destruct (failure w3); reflexivity.
Qed.

(** X4: when the engine rejects [stop()], the caller gets the rejection
    but the flag is already cleared and the handler already removed: a
    second [stop()] does nothing, so the engine's [stop] is not tried
    again. *)
Theorem failed_stop_is_not_retried :
  forall (c : Discv5Discovery) (w : Turn) (ts : list Turn) (bs : list Buffer)
         (e : Error),
    started c = true ->
    failure w = Some e ->
    ~ In ExtStart (meanwhile w) ->
    let failed := run stop (boot c (w :: ts) bs) in
    fst failed = Threw e /\
    started (self (snd failed)) = false /\
    trace (snd failed) = [did (discv5_off "discovered"); began discv5_stop] /\
    (forall ts' bs',
       run stop (boot (self (snd failed)) ts' bs') =
       (Returned, boot (self (snd failed)) ts' bs')).
Proof.
  intros c w ts bs e Hc Hw Hno failed.
  assert (Hflag :
            started (interfere (meanwhile w) (set_started false c)) = false).
  { apply interfere_keeps_stopped; [exact Hno | reflexivity]. }
  unfold failed, run, stop. simpl. rewrite Hc. simpl. rewrite Hw. simpl.
  repeat split; try reflexivity; try exact Hflag.
  intros ts' bs'. rewrite Hflag. reflexivity.
Qed.

(** X5: a [stop()] that arrives while [start()] is waiting for the engine
    does not cancel the start: [start()] does not read the flag again,
    subscribes the handler and schedules the loop.  The controller is then
    stopped with the handler subscribed; a later [stop()] does nothing,
    and the scheduled loop ends at its first check without a lookup. *)
Theorem stop_during_start_leaves_subscription :
  forall (c : Discv5Discovery) (calls : list ExtCall) (w : Turn)
         (ts : list Turn) (bs : list Buffer),
    started c = false ->
    meanwhile w = calls ++ [ExtStop] ->
    failure w = None ->
    let r := run start (boot c (w :: ts) bs) in
    fst r = Returned /\
    started (self (snd r)) = false /\
    trace (snd r) =
      [began discv5_start; did (discv5_on "discovered");
       did (setTimeout_findPeers (num 1))] /\
    (forall ts' bs',
       run stop (boot (self (snd r)) ts' bs') =
       (Returned, boot (self (snd r)) ts' bs')) /\
    (forall fuel ts' bs',
       run (findPeers (S fuel)) (boot (self (snd r)) ts' bs') =
       (Returned, boot (self (snd r)) ts' bs')).
Proof.
  intros c calls w ts bs Hc Hw Hok r.
  assert (Hflag :
            started (interfere (meanwhile w) (set_started true c)) = false).
  { rewrite Hw. apply interfere_stop_last. }
  unfold r, run, start. simpl. rewrite Hc. simpl. rewrite Hok. simpl.
  repeat split; try reflexivity; try exact Hflag.
  - intros ts' bs'. unfold stop. simpl. rewrite Hflag. reflexivity.
  - intros fuel ts' bs'. rewrite Hflag. reflexivity.
Qed.

(** ** The interval field *)

Lemma start_lookupInterval (m : Machine) :
  lookupInterval (self (snd (run start m))) = lookupInterval (self m).
Proof.
  unfold run, start. simpl. destruct (started (self m)); simpl; [reflexivity | ].
  destruct (turns m) as [ | w ts]; simpl; [reflexivity | ].
  destruct (failure w); simpl; rewrite interfere_lookupInterval; reflexivity.
Qed.

Lemma stop_lookupInterval (m : Machine) :
  lookupInterval (self (snd (run stop m))) = lookupInterval (self m).
Proof.
  unfold run, stop. simpl. destruct (started (self m)); simpl; [ | reflexivity].
  destruct (turns m) as [ | w ts]; simpl; [reflexivity | ].
  destruct (failure w); simpl; rewrite interfere_lookupInterval; reflexivity.
Qed.

(** X6: only the constructor writes [lookupInterval]: [start], [stop],
    [findPeers], [addEnr] and [handleEnr] leave the field as it is,
    whatever the schedule and whatever [start()] and [stop()] calls come
    in between. *)
Theorem methods_keep_lookupInterval :
  forall (m : Machine) (fuel : nat) (enr : ENRInput),
    lookupInterval (self (snd (run start m))) = lookupInterval (self m) /\
    lookupInterval (self (snd (run stop m))) = lookupInterval (self m) /\
    lookupInterval (self (snd (run (findPeers fuel) m))) =
      lookupInterval (self m) /\
    lookupInterval (self (snd (run (addEnr enr) m))) =
      lookupInterval (self m) /\
    lookupInterval (self (snd (run (handleEnr enr) m))) =
      lookupInterval (self m).
Proof.
  intros m fuel enr. repeat split.
  - apply start_lookupInterval.
  - apply stop_lookupInterval.
  - apply (findPeers_steady fuel (steady_refl m)).
  - apply (addEnr_steady enr (steady_refl m)).
  - apply (handleEnr_steady enr (steady_refl m)).
Qed.

End Behaviour.

(** * Further properties of the loop and of construction *)

Section Calls.

Context {imports : Imports}.

(** ** Which calls are made *)

Lemma only_refl (P : Event -> bool) (m : Machine) : only P m m.
Proof.
  exists []. rewrite app_nil_r. split; reflexivity.
Qed.

Lemma only_same (P : Event -> bool) (m0 m m' : Machine) :
  trace m' = trace m -> only P m0 m -> only P m0 m'.
Proof.
  intros Htrace (extra & Hex & Hall). exists extra.
  rewrite Htrace. split; assumption.
Qed.

Lemma only_log (P : Event -> bool) (m0 m : Machine) (ev : Event) :
  P ev = true -> only P m0 m -> only P m0 (log ev m).
Proof.
  intros Hev (extra & Hex & Hall). exists (extra ++ [ev]). simpl.
  rewrite Hex, app_assoc. split; [reflexivity | ].
  rewrite forallb_app, Hall. simpl. rewrite Hev. reflexivity.
Qed.

Lemma handleEnr_only_loop_calls (enr : ENRInput) (m0 m : Machine) :
  only loop_call m0 m -> only loop_call m0 (snd (run (handleEnr enr) m)).
Proof.
  intro H. unfold run, handleEnr, decoded.
  destruct (decode enr) as [e | d]; [exact H | ].
  destruct (getLocationMultiaddr d "tcp") as [t | ]; [ | exact H].
  assert (Hlog : only loop_call m0 (log (began (enr_peerId d)) m)).
  { apply only_log; [reflexivity | exact H]. }
  simpl. destruct (turns m) as [ | w rest]; [exact Hlog | ].
  simpl. destruct (peerId d) as [peer | e]; simpl.
  - apply only_log; [reflexivity | ].
    revert Hlog. apply only_same. reflexivity.
  - revert Hlog. apply only_same. reflexivity.
Qed.

Lemma lookup_loop_only_loop_calls (enrs : list ENR) :
  forall m0 m,
    only loop_call m0 m ->
    only loop_call m0
      (snd (run (forEach enrs (fun enr =>
                   seq (handleEnr (EnrObj enr)) (Yield Return))) m)).
Proof.
  unfold run.
  induction enrs as [ | enr enrs IH]; intros m0 m H; simpl; [exact H | ].
  rewrite !exec_seq.
  pose proof (handleEnr_only_loop_calls (EnrObj enr) H) as Hh.
  unfold run in Hh.
  destruct (exec interfere (handleEnr (EnrObj enr)) m) as [o m1].
  simpl in Hh. destruct o; simpl; try exact Hh.
  destruct (turns m1) as [ | w rest]; simpl; [exact Hh | ].
  apply IH. revert Hh. apply only_same. reflexivity.
Qed.

Lemma findPeers_only_loop_calls (fuel : nat) :
  forall m0 m,
    only loop_call m0 m ->
    only loop_call m0 (snd (run (findPeers fuel) m)).
Proof.
  unfold run.
  induction fuel as [ | fuel IH]; intros m0 m H; [exact H | ].
  assert (Hstep :
    forall target m',
      only loop_call m0 m' ->
      only loop_call m0
        (snd (exec interfere
                (await (discv5_findNode target) (fun enrs =>
                   GetStarted (fun still_started =>
                     if negb still_started then Return
                     else
                       seq
                         (forEach enrs (fun enr =>
                            seq (handleEnr (EnrObj enr)) (Yield Return)))
                         (GetLookupInterval (fun ms =>
                            await (setTimeout_resolve ms) (fun _ =>
                              findPeers fuel)))))) m'))).
  { intros target m' H'.
    assert (Hlog : only loop_call m0 (log (began (discv5_findNode target)) m')).
    { apply only_log; [reflexivity | exact H']. }
    simpl. destruct (turns m') as [ | w rest]; [exact Hlog | ].
    assert (Hres : only loop_call m0
                     (resumed interfere w rest
                        (log (began (discv5_findNode target)) m'))).
    { revert Hlog. apply only_same. reflexivity. }
    simpl. destruct (failure w); simpl; [exact Hres | ].
    match goal with |- context [negb ?b] => destruct b end; simpl;
      [ | exact Hres].
    rewrite exec_seq.
    pose proof (lookup_loop_only_loop_calls (found w) Hres) as Hloop.
    unfold run in Hloop.
    match type of Hloop with
    | only _ _ (snd ?x) => destruct x as [o m1]
    end.
    simpl in Hloop. destruct o; simpl; try exact Hloop.
    assert (Hwait :
      only loop_call m0
        (log (began (setTimeout_resolve (lookupInterval (self m1)))) m1)).
    { apply only_log; [reflexivity | exact Hloop]. }
    destruct (turns m1) as [ | w' rest']; [exact Hwait | ].
    simpl. apply IH. revert Hwait. apply only_same. reflexivity. }
  cbn [findPeers exec].
  destruct (started (self m)); [ | exact H].
  cbn [exec].
  destruct (entropy m) as [ | bytes rest].
  - apply Hstep. exact H.
  - apply Hstep. revert H. apply only_same. reflexivity.
Qed.

Lemma loop_calls_read (tr : list Event) :
  forallb loop_call tr = true ->
  stored tr = [] /\ engine_starts tr = 0 /\ engine_stops tr = 0 /\
  subscriptions tr = 0 /\ unsubscriptions tr = 0 /\ scheduled tr = [].
Proof.
  induction tr as [ | ev tr IH]; intro H; simpl; [repeat split | ].
  simpl in H. apply andb_prop in H. destruct H as [Hev Htr].
  destruct (IH Htr) as (H1 & H2 & H3 & H4 & H5 & H6).
  destruct ev as [call | op]; [destruct call | destruct op];
    try discriminate Hev; repeat split; assumption.
Qed.

(** X7: the polling loop, however long it runs and whatever happens in
    between, only looks nodes up, asks records for their peer id, emits
    events and sets its interval timer: it never puts a record into the
    engine's store, never starts or stops the engine, never subscribes or
    removes a handler and never schedules another loop. *)
Theorem findPeers_only_looks_up_and_emits :
  forall (fuel : nat) (c : Discv5Discovery) (ts : list Turn)
         (bs : list Buffer),
    let tr := trace (snd (run (findPeers fuel) (boot c ts bs))) in
    forallb loop_call tr = true /\
    stored tr = [] /\
    engine_starts tr = 0 /\
    engine_stops tr = 0 /\
    subscriptions tr = 0 /\
    unsubscriptions tr = 0 /\
    scheduled tr = [].
Proof.
  intros fuel c ts bs tr.
  destruct (findPeers_only_loop_calls fuel (only_refl loop_call (boot c ts bs)))
    as (extra & Hex & Hall).
  simpl in Hex. subst tr. rewrite Hex.
  split; [exact Hall | apply loop_calls_read; exact Hall].
Qed.

(** ** A failed lookup *)

(** X8: when the engine rejects the lookup, the loop ends with that
    rejection: no record is ingested, no timer is set and no further
    lookup is made, and unless [stop()] was called in the meantime the
    flag stays set. *)
Theorem findPeers_ends_on_failed_lookup :
  forall (fuel : nat) (c : Discv5Discovery) (w : Turn) (ts : list Turn)
         (bs : list Buffer) (e : Error),
    started c = true ->
    failure w = Some e ->
    ~ In ExtStop (meanwhile w) ->
    let r := run (findPeers (S fuel)) (boot c (w :: ts) bs) in
    fst r = Threw e /\
    lookups (trace (snd r)) = 1 /\
    List.length (trace (snd r)) = 1 /\
    turns (snd r) = ts /\
    started (self (snd r)) = true.
Proof.
  intros fuel c w ts bs e Hc Hw Hno r.
  assert (Hflag : started (interfere (meanwhile w) c) = true).
  { apply interfere_keeps_running; assumption. }
  unfold r, run. simpl. rewrite Hc.
  destruct bs as [ | bytes bs]; simpl; rewrite Hw; simpl;
    repeat split; try reflexivity; exact Hflag.
Qed.

End Calls.

(** * One turn of the loop, and construction that fails *)

Section Iteration.

Context {imports : Imports}.

Lemma lookups_app (a b : list Event) :
  lookups (a ++ b) = lookups a + lookups b.
Proof.
  induction a as [ | ev a IH]; simpl; [reflexivity | ].
  destruct ev as [call | op]; [exact IH | ].
  destruct op; simpl; rewrite IH; reflexivity.
Qed.

Lemma stored_app (a b : list Event) : stored (a ++ b) = stored a ++ stored b.
Proof.
  induction a as [ | ev a IH]; simpl; [reflexivity | ].
  destruct ev as [call | op]; [ | exact IH].
  destruct call; simpl; rewrite IH; reflexivity.
Qed.

(** [await this.handleEnr(enr)] for a record with a TCP location. *)
Lemma ingest_with_tcp (e : ENR) (t : Multiaddr) (peer : PeerId)
    (w1 w2 : Turn) (ts : list Turn) (m : Machine) :
  getLocationMultiaddr e "tcp" = Some t ->
  peerId e = Resolved peer ->
  turns m = w1 :: w2 :: ts ->
  exists m',
    exec interfere (seq (handleEnr (EnrObj e)) (Yield Return)) m
      = (Returned, m') /\
    turns m' = ts /\
    entropy m' = entropy m /\
    lookupInterval (self m') = lookupInterval (self m) /\
    trace m' =
      trace m ++
      [began (enr_peerId e);
       did (emit "peer"
              {| id := peer;
                 multiaddrs :=
                   match getLocationMultiaddr e "udp" with
                   | Some u => [t; u]
                   | None => [t]
                   end |})].
Proof.
  intros Htcp Hid Hturns. rewrite exec_seq.
  unfold handleEnr, decoded. simpl. rewrite Htcp. simpl.
  rewrite Hturns. simpl. rewrite Hid. simpl.
  eexists. split; [reflexivity | ]. simpl.
  rewrite !interfere_lookupInterval, <- app_assoc.
  repeat split; reflexivity.
Qed.

(** [await this.handleEnr(enr)] for a record without a TCP location. *)
Lemma ingest_without_tcp (e : ENR) (w1 : Turn) (ts : list Turn)
    (m : Machine) :
  getLocationMultiaddr e "tcp" = None ->
  turns m = w1 :: ts ->
  exists m',
    exec interfere (seq (handleEnr (EnrObj e)) (Yield Return)) m
      = (Returned, m') /\
    turns m' = ts /\
    entropy m' = entropy m /\
    lookupInterval (self m') = lookupInterval (self m) /\
    trace m' = trace m.
Proof.
  intros Htcp Hturns. rewrite exec_seq.
  unfold handleEnr, decoded. simpl. rewrite Htcp. simpl.
  rewrite Hturns. simpl.
  eexists. split; [reflexivity | ]. simpl.
  rewrite interfere_lookupInterval. repeat split; reflexivity.
Qed.

Lemma lookup_loop_run (enrs : list ENR) :
  forall (ws rest : list Turn) (m : Machine),
    forallb resolves enrs = true ->
    List.length ws = ingest_turns enrs ->
    turns m = ws ++ rest ->
    exists m' extra,
      exec interfere
        (forEach enrs (fun enr =>
           seq (handleEnr (EnrObj enr)) (Yield Return))) m
        = (Returned, m') /\
      turns m' = rest /\
      lookupInterval (self m') = lookupInterval (self m) /\
      trace m' = trace m ++ extra /\
      peers extra = flat_map boot_peers (map EnrObj enrs) /\
      lookups extra = 0 /\
      waits extra = [].
Proof.
  induction enrs as [ | e enrs IH]; intros ws rest m Hres Hlen Hturns.
  - destruct ws; [ | discriminate Hlen]. simpl in Hturns.
    exists m, []. rewrite app_nil_r. repeat split; try reflexivity.
    exact Hturns.
  - simpl in Hres. apply andb_prop in Hres. destruct Hres as [He Hrest].
    simpl forEach. rewrite exec_seq. simpl in Hlen.
    unfold resolves in He.
    destruct (getLocationMultiaddr e "tcp") as [t | ] eqn:Htcp.
    + destruct (peerId e) as [peer | err] eqn:Hid; [ | discriminate He].
      destruct ws as [ | w1 [ | w2 ws]]; try discriminate Hlen.
      simpl in Hturns.
      destruct (@ingest_with_tcp e t peer w1 w2 (ws ++ rest) m Htcp Hid Hturns)
        as (m1 & Hrun & Hturns1 & _ & Hli1 & Htrace1).
      rewrite Hrun.
      assert (Hlen' : List.length ws = ingest_turns enrs).
      { simpl in Hlen. lia. }
      destruct (IH ws rest m1 Hrest Hlen' Hturns1)
        as (m' & extra & Hrun' & Hturns' & Hli' & Htrace' & Hpeers & Hlook
            & Hwaits).
      exists m'. eexists. split; [exact Hrun' | ].
      split; [exact Hturns' | ]. split; [congruence | ].
      split; [rewrite Htrace', Htrace1, <- app_assoc; reflexivity | ].
      rewrite peers_app, lookups_app, waits_app, Hpeers, Hlook, Hwaits.
      simpl. unfold boot_peers. simpl. rewrite Htcp, Hid.
      repeat split; reflexivity.
    + destruct ws as [ | w1 ws]; try discriminate Hlen.
      simpl in Hturns.
      destruct (@ingest_without_tcp e w1 (ws ++ rest) m Htcp Hturns)
        as (m1 & Hrun & Hturns1 & _ & Hli1 & Htrace1).
      rewrite Hrun.
      assert (Hlen' : List.length ws = ingest_turns enrs).
      { simpl in Hlen. lia. }
      destruct (IH ws rest m1 Hrest Hlen' Hturns1)
        as (m' & extra & Hrun' & Hturns' & Hli' & Htrace' & Hpeers & Hlook
            & Hwaits).
      exists m', extra. split; [exact Hrun' | ].
      split; [exact Hturns' | ]. split; [congruence | ].
      split; [rewrite Htrace', Htrace1; reflexivity | ].
      rewrite Hpeers. simpl. unfold boot_peers at 2. simpl. rewrite Htcp.
      repeat split; assumption.
Qed.

(** One pass through the body of the [while] loop, up to the interval
    wait. *)
Lemma iteration_run (fuel : nat) (c : Discv5Discovery) (w0 : Turn)
    (ws rest : list Turn) (bs : list Buffer) :
  started c = true ->
  ~ In ExtStop (meanwhile w0) ->
  failure w0 = None ->
  forallb resolves (found w0) = true ->
  List.length ws = ingest_turns (found w0) ->
  exists m1 target extra,
    run (findPeers (S fuel)) (boot c (w0 :: ws ++ rest) bs) =
      exec interfere
        (GetLookupInterval (fun ms =>
           await (setTimeout_resolve ms) (fun _ => findPeers fuel))) m1 /\
    turns m1 = rest /\
    lookupInterval (self m1) = lookupInterval c /\
    trace m1 = began (discv5_findNode target) :: extra /\
    peers extra = flat_map boot_peers (map EnrObj (found w0)) /\
    lookups extra = 0 /\
    waits extra = [].
Proof.
  intros Hc Hno Hok Hres Hlen.
  assert (Hflag : started (interfere (meanwhile w0) c) = true).
  { apply interfere_keeps_running; assumption. }
  assert (Hstep :
    forall target bs',
      exists m1 extra,
        exec interfere
          (await (discv5_findNode target) (fun enrs =>
             GetStarted (fun still_started =>
               if negb still_started then Return
               else
                 seq
                   (forEach enrs (fun enr =>
                      seq (handleEnr (EnrObj enr)) (Yield Return)))
                   (GetLookupInterval (fun ms =>
                      await (setTimeout_resolve ms) (fun _ =>
                        findPeers fuel))))))
          (boot c (w0 :: ws ++ rest) bs') =
        exec interfere
          (GetLookupInterval (fun ms =>
             await (setTimeout_resolve ms) (fun _ => findPeers fuel))) m1 /\
        turns m1 = rest /\
        lookupInterval (self m1) = lookupInterval c /\
        trace m1 = began (discv5_findNode target) :: extra /\
        peers extra = flat_map boot_peers (map EnrObj (found w0)) /\
        lookups extra = 0 /\
        waits extra = []).
  { intros target bs'. simpl. rewrite Hok. simpl. rewrite Hflag. simpl.
    rewrite exec_seq.
    match goal with
    | |- context [exec interfere (forEach _ _) ?m] =>
        destruct (@lookup_loop_run (found w0) ws rest m Hres Hlen eq_refl)
          as (m1 & extra & Hrun & Hturns & Hli & Htrace & Hpeers & Hlook
              & Hwaits)
    end.
    rewrite Hrun. exists m1, extra. split; [reflexivity | ].
    split; [exact Hturns | ].
    split; [rewrite Hli; simpl; apply interfere_lookupInterval | ].
    split; [exact Htrace | ]. repeat split; assumption. }
  unfold run. cbn [findPeers exec]. simpl self. rewrite Hc. cbn [exec].
  destruct bs as [ | bytes bs]; simpl entropy; cbv iota.
  - destruct (Hstep (createNodeId (toBuffer (repeat Byte.x00 32))) [])
      as (m1 & extra & H).
    exists m1, (createNodeId (toBuffer (repeat Byte.x00 32))), extra. exact H.
  - destruct (Hstep (createNodeId (toBuffer bytes)) bs) as (m1 & extra & H).
    exists m1, (createNodeId (toBuffer bytes)), extra. exact H.
Qed.


(** X10: a [stop()] that arrives while the loop waits for its timer ends
    the loop at the next check of the flag: the events of the pass that
    is over stay, no second lookup is made and the loop returns. *)
Theorem findPeers_ends_after_stop_during_wait :
  forall (fuel : nat) (c : Discv5Discovery) (w0 wt : Turn)
         (ws rest : list Turn) (calls : list ExtCall) (bs : list Buffer),
    started c = true ->
    ~ In ExtStop (meanwhile w0) ->
    failure w0 = None ->
    forallb resolves (found w0) = true ->
    List.length ws = ingest_turns (found w0) ->
    meanwhile wt = calls ++ [ExtStop] ->
    let r :=
      run (findPeers (S (S fuel))) (boot c (w0 :: ws ++ wt :: rest) bs) in
    fst r = Returned /\
    peers (trace (snd r)) = flat_map boot_peers (map EnrObj (found w0)) /\
    lookups (trace (snd r)) = 1 /\
    started (self (snd r)) = false /\
    turns (snd r) = rest.
Proof.
  intros fuel c w0 wt ws rest calls bs Hc Hno Hok Hres Hlen Hwt r.
  destruct (@iteration_run (S fuel) c w0 ws (wt :: rest) bs
              Hc Hno Hok Hres Hlen)
    as (m1 & target & extra & Hrun & Hturns & Hli & Htrace & Hpeers & Hlook
        & Hwaits).
  subst r. rewrite Hrun. cbn [exec await]. simpl turns. rewrite Hturns.
  cbn [settle exec findPeers]. unfold resumed. simpl self.
  rewrite Hwt, interfere_stop_last. simpl. rewrite Htrace. simpl.
  rewrite peers_app, lookups_app, Hpeers, Hlook. simpl.
  rewrite app_nil_r. repeat split.
  apply interfere_stop_last.
Qed.

(** ** Construction with a record that is refused *)

Lemma addEnr_refuses (intf : Interference) (enr : ENRInput) (m : Machine) :
  accepted enr = false ->
  exec intf (addEnr enr) m = (Threw (rejection enr), m).
Proof.
  unfold accepted, rejection, addEnr, decoded. intro H.
  destruct (decode enr) as [e | d]; [reflexivity | ].
  destruct (udp d), (udp6 d); try discriminate H. reflexivity.
Qed.

Lemma boot_records_abort (intf : Interference) (bad : ENRInput)
    (rest : list ENRInput) (good : list ENRInput) :
  forall m : Machine,
    forallb accepted good = true ->
    accepted bad = false ->
    let r :=
      exec intf
        (forEach (good ++ bad :: rest) (fun bootEnr =>
           seq (addEnr bootEnr) (Detach (handleEnr bootEnr) Return))) m in
    fst r = Threw (rejection bad) /\
    self (snd r) = self m /\
    turns (snd r) = turns m /\
    trace (snd r) = trace m ++ flat_map boot_calls good /\
    microtasks (snd r) = microtasks m ++ flat_map boot_pending good.
Proof.
  induction good as [ | enr good IH]; intros m Hgood Hbad; simpl.
  - rewrite !exec_seq, (@addEnr_refuses intf bad m Hbad). simpl.
    rewrite !app_nil_r. repeat split; reflexivity.
  - simpl in Hgood. apply andb_prop in Hgood. destruct Hgood as [Henr Hgood].
    rewrite exec_seq.
    destruct (boot_record_effect intf enr m Henr)
      as (Ho & Hself & Hturns & Htrace & Hqueue & _).
    destruct (exec intf (seq (addEnr enr) (Detach (handleEnr enr) Return)) m)
      as [o m1].
    simpl in Ho, Hself, Hturns, Htrace, Hqueue. subst o.
    destruct (IH m1 Hgood Hbad) as (Ho' & Hself' & Hturns' & Htrace' & Hqueue').
    rewrite Ho', Hself', Hturns', Htrace', Hqueue'.
    rewrite Hself, Hturns, Htrace, Hqueue, !app_assoc.
    repeat split; reflexivity.
Qed.

Lemma stored_boot_calls (boots : list ENRInput) :
  stored (flat_map boot_calls boots) = decoded_all boots.
Proof.
  induction boots as [ | enr boots IH]; simpl; [reflexivity | ].
  rewrite stored_app, IH. unfold boot_calls.
  destruct (decode enr) as [e | d]; [reflexivity | ].
  destruct (getLocationMultiaddr d "tcp"); reflexivity.
Qed.

(** X11: construction stops at the first boot record the strict path
    refuses, with the decoder's error or the missing-udp error of that
    record: the records before it are in the engine's store and will have
    their events, that record and the ones after it are neither stored
    nor ingested. *)
Theorem constructor_aborts_at_first_refusal :
  forall (options : IDiscv5DiscoveryOptions) (good rest : list ENRInput)
         (bad : ENRInput) (c : Discv5Discovery) (ts : list Turn)
         (bs : list Buffer),
    opt_bootEnrs options = good ++ bad :: rest ->
    forallb accepted good = true ->
    accepted bad = false ->
    let r := run (constructor options) (boot c ts bs) in
    fst r = Threw (rejection bad) /\
    stored (trace (snd r)) = decoded_all good /\
    peers (trace (flush (snd r))) = flat_map boot_peers good /\
    started (self (snd r)) = false.
Proof.
  intros options good rest bad c ts bs Hboots Hgood Hbad r. subst r.
  unfold run, constructor. rewrite Hboots. simpl.
  match goal with
  | |- context [exec interfere ?t ?m] =>
      destruct (@boot_records_abort interfere bad rest good m Hgood Hbad)
        as (Ho & Hself & Hturns & Htrace & Hqueue);
      destruct (exec interfere t m) as [o m1] eqn:Hrun
  end.
  simpl in Ho, Hself, Hturns, Htrace, Hqueue. simpl.
  split; [exact Ho | ].
  split; [rewrite Htrace; simpl; apply stored_boot_calls | ].
  split; [ | rewrite Hself; reflexivity].
  unfold flush. rewrite Hqueue. simpl.
  rewrite drain_boot_records. simpl. rewrite Htrace. simpl.
  rewrite peers_boot_calls. reflexivity.
Qed.

(** ** What construction never does *)

Lemma boot_loop_frame (boots : list ENRInput) :
  forall m : Machine,
    let r :=
      run (forEach boots (fun bootEnr =>
             seq (addEnr bootEnr) (Detach (handleEnr bootEnr) Return))) m in
    self (snd r) = self m /\
    turns (snd r) = turns m /\
    only construction_call m (snd r) /\
    (fst r = Returned \/ exists e, fst r = Threw e).
Proof.
  unfold run.
  induction boots as [ | enr boots IH]; intro m; simpl.
  - repeat split. + apply only_refl. + left. reflexivity.
  - rewrite exec_seq.
    destruct (accepted enr) eqn:Hacc.
    + destruct (boot_record_effect interfere enr m Hacc)
        as (Ho & Hself & Hturns & Htrace & _).
      destruct (exec interfere
                  (seq (addEnr enr) (Detach (handleEnr enr) Return)) m)
        as [o m1].
      simpl in Ho, Hself, Hturns, Htrace. subst o.
      destruct (IH m1) as (Hself' & Hturns' & (extra & Hex & Hall) & Hout).
      split; [congruence | ]. split; [congruence | ].
      split; [ | exact Hout].
      exists (boot_calls enr ++ extra).
      rewrite Hex, Htrace, app_assoc. split; [reflexivity | ].
      rewrite forallb_app, Hall, andb_true_r. unfold boot_calls.
      destruct (decode enr) as [e | d]; [reflexivity | ].
      destruct (getLocationMultiaddr d "tcp"); reflexivity.
    + rewrite exec_seq, (@addEnr_refuses interfere enr m Hacc). simpl.
      repeat split. * apply only_refl. * right. eexists. reflexivity.
Qed.

Lemma construction_calls_read (tr : list Event) :
  forallb construction_call tr = true ->
  peers tr = [] /\ engine_starts tr = 0 /\ subscriptions tr = 0 /\
  scheduled tr = [] /\ lookups tr = 0 /\ waits tr = [].
Proof.
  induction tr as [ | ev tr IH]; intro H; simpl; [repeat split | ].
  simpl in H. apply andb_prop in H. destruct H as [Hev Htr].
  destruct (IH Htr) as (H1 & H2 & H3 & H4 & H5 & H6).
  destruct ev as [call | op]; [destruct call | destruct op];
    try discriminate Hev; repeat split; assumption.
Qed.

(** X12: for every set of options, whether construction returns or
    throws, it runs to its end at once and leaves the controller stopped;
    all it does is create the engine, put records into its store and ask
    records for their peer id: no event is emitted before the constructor
    is over, the engine is not started, no handler is subscribed, no loop
    is scheduled and no lookup is made. *)
Theorem constructor_only_creates_and_stores :
  forall (options : IDiscv5DiscoveryOptions) (c : Discv5Discovery)
         (ts : list Turn) (bs : list Buffer),
    let r := run (constructor options) (boot c ts bs) in
    (fst r = Returned \/ exists e, fst r = Threw e) /\
    started (self (snd r)) = false /\
    turns (snd r) = ts /\
    forallb construction_call (trace (snd r)) = true /\
    peers (trace (snd r)) = [] /\
    engine_starts (trace (snd r)) = 0 /\
    subscriptions (trace (snd r)) = 0 /\
    scheduled (trace (snd r)) = [] /\
    lookups (trace (snd r)) = 0.
Proof.
  intros options c ts bs r. subst r. unfold run, constructor. simpl.
  match goal with
  | |- context [exec interfere ?t ?m] =>
      destruct (boot_loop_frame (opt_bootEnrs options) m)
        as (Hself & Hturns & (extra & Hex & Hall) & Hout);
      unfold run in Hself, Hturns, Hex, Hout;
      destruct (exec interfere t m) as [o m1]
  end.
  simpl in Hself, Hturns, Hex, Hout. simpl.
  assert (Hcalls : forallb construction_call (trace m1) = true).
  { rewrite Hex. simpl. exact Hall. }
  destruct (construction_calls_read _ Hcalls) as (H1 & H2 & H3 & H4 & H5 & _).
  split; [exact Hout | ]. split; [rewrite Hself; reflexivity | ].
  split; [exact Hturns | ]. repeat split; assumption.
Qed.

End Iteration.

(** * The flag as the only coordination *)

Section Coordination.

Context {imports : Imports}.

Lemma interfere_start_last (calls : list ExtCall) (c : Discv5Discovery) :
  started (interfere (calls ++ [ExtStart]) c) = true.
Proof.
  unfold interfere. rewrite fold_left_app. simpl.
  rewrite called_start.
  destruct (started (fold_left _ calls c)) eqn:E; [exact E | reflexivity].
Qed.

(** X13: the loop only sees the flag at its two checks.  When the lifecycle
    calls made during the interval wait end with a [start()], for
    instance a [stop()] followed at once by a [start()], the loop finds
    the flag set, does not notice the stop and goes on with a second
    lookup. *)
Theorem findPeers_survives_restart_during_wait :
  forall (fuel : nat) (c : Discv5Discovery) (w0 wt : Turn)
         (ws : list Turn) (calls : list ExtCall) (bs : list Buffer),
    started c = true ->
    ~ In ExtStop (meanwhile w0) ->
    failure w0 = None ->
    forallb resolves (found w0) = true ->
    List.length ws = ingest_turns (found w0) ->
    meanwhile wt = calls ++ [ExtStart] ->
    let r := run (findPeers (S (S fuel))) (boot c (w0 :: ws ++ [wt]) bs) in
    (exists p, fst r = Suspended p) /\
    lookups (trace (snd r)) = 2 /\
    peers (trace (snd r)) = flat_map boot_peers (map EnrObj (found w0)) /\
    started (self (snd r)) = true.
Proof.
  intros fuel c w0 wt ws calls bs Hc Hno Hok Hres Hlen Hwt r.
  destruct (@iteration_run _ (S fuel) c w0 ws [wt] bs Hc Hno Hok Hres Hlen)
    as (m1 & target & extra & Hrun & Hturns & Hli & Htrace & Hpeers & Hlook
        & Hwaits).
  subst r. rewrite Hrun. cbn [exec await]. simpl turns. rewrite Hturns.
  cbn [settle exec findPeers]. unfold resumed. simpl self.
  rewrite Hwt, interfere_start_last. cbn [exec]. simpl entropy.
  destruct (entropy m1) as [ | bytes rest]; simpl; rewrite Htrace; simpl;
    rewrite !peers_app, !lookups_app, Hpeers, Hlook; simpl;
    (split; [eexists; reflexivity | ]);
    repeat split; try reflexivity;
    try (rewrite !app_nil_r; reflexivity);
    apply interfere_start_last.
Qed.

(** X14: neither ingestion path reads the controller: on a stopped and on
    a running controller, with any interval, the same input and schedule
    give the same outcome and the same calls.  A record is stored, and an
    event emitted, also when the controller is stopped. *)
Theorem ingestion_ignores_controller_state :
  forall (enr : ENRInput) (c c' : Discv5Discovery) (ts : list Turn)
         (bs : list Buffer),
    fst (run (addEnr enr) (boot c ts bs)) =
      fst (run (addEnr enr) (boot c' ts bs)) /\
    trace (snd (run (addEnr enr) (boot c ts bs))) =
      trace (snd (run (addEnr enr) (boot c' ts bs))) /\
    fst (run (handleEnr enr) (boot c ts bs)) =
      fst (run (handleEnr enr) (boot c' ts bs)) /\
    trace (snd (run (handleEnr enr) (boot c ts bs))) =
      trace (snd (run (handleEnr enr) (boot c' ts bs))).
Proof.
  intros enr c c' ts bs. unfold run, addEnr, handleEnr, decoded.
  destruct (decode enr) as [e | d]; simpl; [repeat split | ].
  split; [destruct (udp d), (udp6 d); reflexivity | ].
  split; [destruct (udp d), (udp6 d); reflexivity | ].
  destruct (getLocationMultiaddr d "tcp") as [t | ]; simpl; [ | split; reflexivity].
  destruct ts as [ | w ts]; simpl; [split; reflexivity | ].
  destruct (peerId d); simpl; split; reflexivity.
Qed.


End Coordination.

(** * The properties on the concrete record class *)

Import Sample.

Canonical Structure Sample.imports.

(** ** Instances of the theorems *)

Lemma addEnr_requires_udp_witness :
  run (addEnr (EnrTxt "enr:neither")) (boot stopped [] []) =
    (Threw InvalidInputError, boot stopped [] []) /\
  run (addEnr (EnrObj both6)) (boot stopped [] []) =
    (Returned, log (did (discv5_addEnr both6)) (boot stopped [] [])).
Proof.
  split.
  - apply (proj1 (@addEnr_requires_udp Sample.imports
                    (EnrTxt "enr:neither") neither (boot stopped [] [])
                    eq_refl));
      reflexivity.
  - apply (proj2 (@addEnr_requires_udp Sample.imports
                    (EnrObj both6) both6 (boot stopped [] []) eq_refl)).
    right. discriminate.
Defined.

Lemma handleEnr_ignores_without_tcp_witness :
  run (handleEnr (EnrTxt "enr:neither")) (boot running [still] []) =
    (Returned, boot running [still] []) /\
  run (handleEnr (EnrObj udp_only)) (boot running [still] []) =
    (Returned, boot running [still] []).
Proof.
  split.
  - apply (@handleEnr_ignores_without_tcp Sample.imports
             (EnrTxt "enr:neither") neither); reflexivity.
  - apply (@handleEnr_ignores_without_tcp Sample.imports
             (EnrObj udp_only) udp_only); reflexivity.
Defined.

Lemma handleEnr_single_address_witness :
  trace (snd (run (handleEnr (EnrTxt "enr:udp-only"))
                (boot running [still] []))) = [] /\
  peers (trace (snd (run (handleEnr (EnrObj tcp_only))
                       (boot running [still] [])))) =
    [{| id := "bob";
        multiaddrs :=
          [{| host := "10.0.0.2"; transport := "tcp"; port := 9001 |}] |}].
Proof.
  split.
  - apply (proj1 (@handleEnr_single_address Sample.imports
                    (EnrTxt "enr:udp-only") udp_only
                    {| host := "10.0.0.1"; transport := "udp"; port := 9000 |}
                    running still [] [] eq_refl));
      reflexivity.
  - apply (proj2 (@handleEnr_single_address Sample.imports
                    (EnrObj tcp_only) tcp_only
                    {| host := "10.0.0.2"; transport := "tcp"; port := 9001 |}
                    running still [] [] eq_refl) "bob");
      reflexivity.
Defined.

Lemma handleEnr_two_addresses_witness :
  peers (trace (snd (run (handleEnr (EnrTxt "enr:both"))
                       (boot running [still] [])))) =
    [{| id := "carol";
        multiaddrs :=
          [{| host := "10.0.0.3"; transport := "tcp"; port := 9001 |};
           {| host := "10.0.0.3"; transport := "udp"; port := 9000 |}] |}].
Proof.
  apply (@handleEnr_two_addresses Sample.imports (EnrTxt "enr:both") both
           {| host := "10.0.0.3"; transport := "tcp"; port := 9001 |}
           {| host := "10.0.0.3"; transport := "udp"; port := 9000 |}
           "carol" running still [] []);
    reflexivity.
Defined.

Lemma stop_when_stopped_is_noop_witness :
  run stop (boot stopped [still] []) = (Returned, boot stopped [still] []).
Proof.
  apply (@stop_when_stopped_is_noop Sample.imports). reflexivity.
Defined.

Lemma start_twice_is_idempotent_witness :
  run start (boot (self (snd (run start (boot stopped [still] [])))) [still] [])
  = (Returned,
     boot (self (snd (run start (boot stopped [still] [])))) [still] []) /\
  engine_starts (trace (snd (run start (boot stopped [still] [])))) = 1.
Proof.
  split; [ | reflexivity].
  apply (@start_twice_is_idempotent Sample.imports stopped [still] [still]
           [] []).
  constructor; [ | constructor]. simpl. intros [].
Defined.

Lemma failed_start_leaves_flag_set_witness :
  fst (run start (boot stopped [failing] [])) = Threw (Rejection "engine") /\
  started (self (snd (run start (boot stopped [failing] [])))) = true.
Proof.
  assert (H := @failed_start_leaves_flag_set Sample.imports stopped failing
                 [] [] (Rejection "engine") eq_refl eq_refl
                 (fun x : In ExtStop [] => x)).
  split; [exact (proj1 H) | exact (proj1 (proj2 H))].
Defined.

Lemma findPeers_discards_lookup_after_stop_witness :
  fst (run (findPeers 1) (boot running [stopping [tcp_only; both]] []))
    = Returned /\
  peers (trace (snd (run (findPeers 1)
                       (boot running [stopping [tcp_only; both]] [])))) = [].
Proof.
  assert (H := @findPeers_discards_lookup_after_stop Sample.imports 0 running
                 [] (stopping [tcp_only; both]) [] [] eq_refl eq_refl
                 eq_refl).
  split; [exact (proj1 H) | exact (proj1 (proj2 (proj2 H)))].
Defined.

Lemma constructor_ingests_boot_records_witness :
  stored (trace (snd (run
    (constructor (options [EnrTxt "enr:udp-only"; EnrObj both; EnrObj both6]
                    None))
    (boot running [] [])))) = [udp_only; both; both6] /\
  map id (peers (trace (flush (snd (run
    (constructor (options [EnrTxt "enr:udp-only"; EnrObj both; EnrObj both6]
                    None))
    (boot running [] [])))))) = ["carol"; "dave"].
Proof.
  assert (H := @constructor_ingests_boot_records Sample.imports
                 (options [EnrTxt "enr:udp-only"; EnrObj both; EnrObj both6]
                    None)
                 running [] [] eq_refl).
  destruct H as (_ & _ & Htrace & _ & Hpeers).
  split.
  - rewrite Htrace. reflexivity.
  - rewrite Hpeers. reflexivity.
Defined.

(** The loop does wait, and for the default when the option is zero. *)
Example findPeers_waits_for_default :
  waits (trace (snd (run (findPeers 3)
    (boot (set_started true
             (self (snd (run (constructor (options [] (Some (num 0))))
                           (boot stopped [] [])))))
       [quiet [both]; still; still; still; quiet []; still] [])))) =
  [num 5000; num 5000].
Proof. reflexivity. Qed.

(** ** Where the specification and the code part *)

(** C1: a record with a UDP location only is ignored by [handleEnr]: no
    event, where one with the UDP location is claimed. *)
Lemma handleEnr_udp_only_emits_nothing :
  getLocationMultiaddr udp_only "udp" =
    Some {| host := "10.0.0.1"; transport := "udp"; port := 9000 |} /\
  getLocationMultiaddr udp_only "tcp" = None /\
  fst (run (handleEnr (EnrObj udp_only)) (boot running [still] []))
    = Returned /\
  peers (trace (snd (run (handleEnr (EnrObj udp_only))
                       (boot running [still] [])))) = [] /\
  peers (trace (snd (run (handleEnr (EnrObj udp_only))
                       (boot running [still] [])))) <>
    [{| id := "alice";
        multiaddrs :=
          [{| host := "10.0.0.1"; transport := "udp"; port := 9000 |}] |}].
Proof.
  repeat split; try reflexivity. discriminate.
Qed.

(** C2: for a record with both locations the TCP location comes first,
    where the UDP location is claimed to. *)
Lemma handleEnr_lists_tcp_first :
  getLocationMultiaddr both "udp" =
    Some {| host := "10.0.0.3"; transport := "udp"; port := 9000 |} /\
  getLocationMultiaddr both "tcp" =
    Some {| host := "10.0.0.3"; transport := "tcp"; port := 9001 |} /\
  map (fun p => hd_error (multiaddrs p))
    (peers (trace (snd (run (handleEnr (EnrObj both))
                          (boot running [still] []))))) =
    [Some {| host := "10.0.0.3"; transport := "tcp"; port := 9001 |}] /\
  map (fun p => hd_error (multiaddrs p))
    (peers (trace (snd (run (handleEnr (EnrObj both))
                          (boot running [still] []))))) <>
    [Some {| host := "10.0.0.3"; transport := "udp"; port := 9000 |}].
Proof.
  repeat split; try reflexivity. discriminate.
Qed.

(** C3: a record with no UDP location on either family but with a TCP
    location is not ignored: [handleEnr] emits an event for it. *)
Lemma handleEnr_emits_without_udp :
  udp tcp_only = None /\
  udp6 tcp_only = None /\
  getLocationMultiaddr tcp_only "udp" = None /\
  getLocationMultiaddr tcp_only "udp4" = None /\
  getLocationMultiaddr tcp_only "udp6" = None /\
  peers (trace (snd (run (handleEnr (EnrObj tcp_only))
                       (boot running [still] [])))) =
    [{| id := "bob";
        multiaddrs :=
          [{| host := "10.0.0.2"; transport := "tcp"; port := 9001 |}] |}] /\
  peers (trace (snd (run (handleEnr (EnrObj tcp_only))
                       (boot running [still] [])))) <> [].
Proof.
  repeat split; try reflexivity. discriminate.
Qed.

(** C5: the loop is inside [handleEnr] for the first of two records when
    [stop()] is called and resolves; resumed, it emits the events of both
    records although the flag is cleared. *)
Lemma findPeers_emits_after_stop :
  let lookup := run (findPeers 2) (boot running [quiet [tcp_only; both]] []) in
  let stopping := run stop (boot (self (snd lookup)) [still] []) in
  let resumption :=
    resume (fst lookup, set_self (self (snd stopping)) (snd lookup))
      [still; still; still; still; still] in
  trace (snd lookup) =
    [began (discv5_findNode (repeat Byte.x00 32));
     began (enr_peerId tcp_only)] /\
  fst stopping = Returned /\
  started (self (snd stopping)) = false /\
  fst resumption = Returned /\
  started (self (snd resumption)) = false /\
  map id (peers (trace (snd resumption))) = ["bob"; "carol"].
Proof.
  repeat split; reflexivity.
Qed.

(** C8: the first boot record has no UDP port, so [addEnr] throws and
    construction ends there: the lazy path is not entered for that
    record, which has a TCP location and would give an event, and the
    second record reaches neither path. *)
Lemma constructor_stops_at_rejected_record :
  let built :=
    run (constructor (options [EnrObj tcp_only; EnrObj both] None))
      (boot running [] []) in
  fst built = Threw InvalidInputError /\
  trace (snd built) =
    [did (Discv5_create (EnrObj neither) "local" "/ip4/0.0.0.0/udp/9000")] /\
  stored (trace (snd built)) = [] /\
  microtasks (snd built) = [] /\
  peers (trace (flush (snd built))) = [] /\
  boot_peers (EnrObj tcp_only) <> [] /\
  accepted (EnrObj both) = true.
Proof.
  repeat split; try reflexivity. discriminate.
Qed.

(** ** Instances of the further properties *)

Lemma handleEnr_rejects_with_peerId_witness :
  fst (@run keyed_imports (@handleEnr keyed_imports anon_input)
         (@boot keyed_imports running [keyed_still] [])) =
    Threw (Rejection "no key") /\
  @peers keyed_imports
    (trace (snd (@run keyed_imports (@handleEnr keyed_imports anon_input)
                   (@boot keyed_imports running [keyed_still] [])))) = [].
Proof.
  assert (H := @handleEnr_rejects_with_peerId keyed_imports anon_input anon
                 {| host := "10.0.0.6"; transport := "tcp"; port := 9001 |}
                 (Rejection "no key") running keyed_still [] []
                 eq_refl eq_refl eq_refl).
  split; [exact (proj1 H) | exact (proj2 (proj2 H))].
Defined.

Lemma start_then_stop_round_trip_witness :
  trace (snd (run stop
                (boot (self (snd (run start (boot stopped [still] []))))
                   [still] []))) =
    [did (discv5_off "discovered"); began discv5_stop] /\
  self (snd (run stop
               (boot (self (snd (run start (boot stopped [still] []))))
                  [still] []))) = stopped.
Proof.
  assert (H := @start_then_stop_round_trip Sample.imports stopped still still
                 [] [] [] [] eq_refl eq_refl eq_refl eq_refl eq_refl).
  destruct H as (_ & _ & _ & _ & Htrace & Hself & _).
  split; [exact Htrace | exact Hself].
Defined.

Lemma failed_stop_is_not_retried_witness :
  fst (run stop (boot running [failing] [])) = Threw (Rejection "engine") /\
  started (self (snd (run stop (boot running [failing] [])))) = false.
Proof.
  assert (H := @failed_stop_is_not_retried Sample.imports running failing
                 [] [] (Rejection "engine") eq_refl eq_refl
                 (fun x : In ExtStart [] => x)).
  split; [exact (proj1 H) | exact (proj1 (proj2 H))].
Defined.

Lemma stop_during_start_leaves_subscription_witness :
  started (self (snd (run start (boot stopped [stopping []] [])))) = false /\
  subscriptions (trace (snd (run start (boot stopped [stopping []] [])))) = 1.
Proof.
  assert (H := @stop_during_start_leaves_subscription Sample.imports stopped
                 [] (stopping []) [] [] eq_refl eq_refl eq_refl).
  destruct H as (_ & Hflag & Htrace & _).
  split; [exact Hflag | rewrite Htrace; reflexivity].
Defined.

Lemma findPeers_ends_on_failed_lookup_witness :
  fst (run (findPeers 3) (boot running [failing; still] [])) =
    Threw (Rejection "engine") /\
  turns (snd (run (findPeers 3) (boot running [failing; still] []))) = [still].
Proof.
  assert (H := @findPeers_ends_on_failed_lookup Sample.imports 2 running
                 failing [still] [] (Rejection "engine") eq_refl eq_refl
                 (fun x : In ExtStop [] => x)).
  destruct H as (Hout & _ & _ & Hturns & _).
  split; [exact Hout | exact Hturns].
Defined.


Lemma findPeers_ends_after_stop_during_wait_witness :
  fst (run (findPeers 2)
         (boot running
            (quiet [tcp_only] :: [still; still] ++ stopping [] :: [still])
            [])) = Returned /\
  lookups (trace (snd (run (findPeers 2)
         (boot running
            (quiet [tcp_only] :: [still; still] ++ stopping [] :: [still])
            [])))) = 1.
Proof.
  assert (H := @findPeers_ends_after_stop_during_wait Sample.imports 0
                 running (quiet [tcp_only]) (stopping []) [still; still]
                 [still] [] []
                 eq_refl (fun x : In ExtStop [] => x) eq_refl eq_refl
                 eq_refl eq_refl).
  destruct H as (Hout & _ & Hlook & _).
  split; [exact Hout | exact Hlook].
Defined.

Lemma constructor_aborts_at_first_refusal_witness :
  fst (run (constructor
              (options [EnrObj both; EnrTxt "enr:neither"; EnrObj both6] None))
         (boot running [] [])) = Threw InvalidInputError /\
  stored (trace (snd (run (constructor
              (options [EnrObj both; EnrTxt "enr:neither"; EnrObj both6] None))
         (boot running [] [])))) = [both].
Proof.
  assert (H := @constructor_aborts_at_first_refusal Sample.imports
                 (options [EnrObj both; EnrTxt "enr:neither"; EnrObj both6]
                    None)
                 [EnrObj both] [EnrObj both6] (EnrTxt "enr:neither")
                 running [] [] eq_refl eq_refl eq_refl).
  destruct H as (Hout & Hstored & _).
  split; [exact Hout | exact Hstored].
Defined.

Lemma findPeers_survives_restart_during_wait_witness :
  lookups (trace (snd (run (findPeers 2)
    (boot running
       (quiet [tcp_only] :: [still; still] ++
        [{| meanwhile := [ExtStop; ExtStart]; failure := None;
            found := [] |}]) [])))) = 2.
Proof.
  assert (H := @findPeers_survives_restart_during_wait Sample.imports 0
                 running (quiet [tcp_only])
                 {| meanwhile := [ExtStop; ExtStart]; failure := None;
                    found := [] |}
                 [still; still] [ExtStop] []
                 eq_refl (fun x : In ExtStop [] => x) eq_refl eq_refl
                 eq_refl eq_refl).
  exact (proj1 (proj2 H)).
Defined.

